(** * gloria: the MIMIC-CXR pretraining dataset

    A shallow embedding of [gloria/datasets/pretraining_dataset.py]:
    the report-to-sentence extraction of [create_path_2_sent_mapping],
    the caption cache of [load_text_data], caption selection in
    [get_caption], the resize-and-pad of [_resize_img] and the batch
    assembly of [multimodal_collate_fn].

    Python values are modelled as follows.
    - [str]: a list of Unicode code points ([list N]).
    - [int]: [Z].  [float]: IEEE binary64, Rocq's primitive floats.
    - [dict] keyed by paths: stdpp's [gmap].  [list]: [list].
    - exceptions: the error monad [res].
    - the global numpy random state: finite distributions ([prog]). *)

From Stdlib Require Import ZArith NArith List String Ascii QArith Floats Lia.
From Stdlib Require Import Sorted DecimalString.
From stdpp Require Import gmap list.

#[local] Set Warnings "-clear-no-such-hyp".

Local Open Scope Z_scope.

(** ** Exceptions *)

Inductive exn :=
| KeyError
| IndexError
| ValueError
| ZeroDivisionError
| OverflowError
| RuntimeError
| Cv2Error
| NoSentence. (* Exception("no sentence for path") *)

Inductive res (A : Type) :=
| Ok (a : A)
| Raise (e : exn).
Arguments Ok {A} a.
Arguments Raise {A} e.

Definition res_bind {A B} (r : res A) (k : A -> res B) : res B :=
  match r with
  | Ok a => k a
  | Raise e => Raise e
  end.

#[global] Instance res_mret : MRet res := @Ok.
#[global] Instance res_mbind : MBind res := fun A B k r => res_bind r k.
#[global] Instance res_fmap : FMap res := fun A B f r => res_bind r (fun a => Ok (f a)).

(** ** Python strings *)

Module PyStr.

(** A [str] is its sequence of code points. *)
Abbreviation pystr := (list N).

(** An ASCII literal as a [str]. *)
Definition lit (s : string) : pystr :=
  map N_of_ascii (list_ascii_of_string s).

Definition chr_nl : N := 10.
Definition chr_space : N := 32.
Definition chr_dot : N := 46.
Definition chr_underscore : N := 95.
Definition chr_fffd : N := 65533.

Definition in_range (lo hi c : N) : bool := ((lo <=? c) && (c <=? hi))%N.
Definition is_ascii (c : N) : bool := (c <? 128)%N.
Definition is_digit (c : N) : bool := in_range 48 57 c.
Definition is_upper (c : N) : bool := in_range 65 90 c.
Definition is_lower (c : N) : bool := in_range 97 122 c.

(** The part of the Unicode character database that [str.lower] and the
    regular expression class [\w] consult on code points from 128 on.
    CPython's [str.lower] has one contextual rule (the final sigma); both
    of its outcomes are non-ASCII letters, so it cannot be observed
    through the functions below, which drop non-ASCII code points from
    every token. *)
Record unicode_db := {
  uni_isalnum : N -> bool;
  uni_lower : N -> list N
}.

(** The database on Latin-1 (code points below 256): letters, the ordinal
    indicators, the micro sign, superscript digits and vulgar fractions
    are alphanumeric; capital letters lower by adding 32.  Code points
    from 256 on are left as separators. *)
Definition latin1 : unicode_db := {|
  uni_isalnum c :=
    in_range 192 214 c || in_range 216 246 c || in_range 248 255 c
    || existsb (N.eqb c) [170; 178; 179; 181; 185; 186; 188; 189; 190]%N;
  uni_lower c :=
    if in_range 192 214 c || in_range 216 222 c then [(c + 32)%N] else [c]
|}.

Section WithUnicode.
Variable U : unicode_db.

(** [\w] of a [str] pattern: alphanumeric or underscore. *)
Definition is_word (c : N) : bool :=
  if is_ascii c
  then is_digit c || is_upper c || is_lower c || (c =? chr_underscore)%N
  else uni_isalnum U c.

Definition lower_char (c : N) : list N :=
  if is_ascii c then [if is_upper c then (c + 32)%N else c]
  else uni_lower U c.

(** [s.lower()] *)
Definition lower (s : pystr) : pystr := flat_map lower_char s.

(** [RegexpTokenizer(r"\w+").tokenize(s)], that is
    [re.findall(r"\w+", s)]: the maximal runs of word characters.
    [cur] is the run being read, reversed. *)
Fixpoint findall_word (cur : pystr) (s : pystr) : list pystr :=
  match s with
  | [] => match cur with [] => [] | _ => [rev cur] end
  | c :: s' =>
      if is_word c then findall_word (c :: cur) s'
      else match cur with
           | [] => findall_word [] s'
           | _ => rev cur :: findall_word [] s'
           end
  end.

Definition tokenize (s : pystr) : list pystr := findall_word [] s.
End WithUnicode.

(** [s.replace("\n", " ")] *)
Definition replace_newlines (s : pystr) : pystr :=
  map (fun c => if (c =? chr_nl)%N then chr_space else c) s.

(** [s.replace(two replacement characters U+FFFD, " ")]: non-overlapping
    pairs, left to right. *)
Fixpoint replace_fffd_pairs (s : pystr) : pystr :=
  match s with
  | a :: ((b :: s') as t) =>
      if ((a =? chr_fffd) && (b =? chr_fffd))%N
      then chr_space :: replace_fffd_pairs s'
      else a :: replace_fffd_pairs t
  | _ => s
  end.

(** Length of the match of [[0-9]+\.] at the start of [s], if any.  The
    digits are matched greedily; giving digits back cannot help, since
    the character after a shorter run is a digit and not the period. *)
Fixpoint bullet_tail (s : pystr) : option nat :=
  match s with
  | c :: s' =>
      if is_digit c then option_map S (bullet_tail s')
      else if (c =? chr_dot)%N then Some 1%nat else None
  | [] => None
  end.

Definition bullet_len (s : pystr) : option nat :=
  match s with
  | c :: s' => if is_digit c then option_map S (bullet_tail s') else None
  | [] => None
  end.

(** [re.compile("[0-9]+\.").split(s)]: the pieces between the leftmost
    non-overlapping matches.  [skip] counts the characters of the
    current match still to pass, [cur] is the piece being read,
    reversed. *)
Fixpoint re_split_from (skip : nat) (cur : pystr) (s : pystr) : list pystr :=
  match s with
  | [] => [rev cur]
  | c :: s' =>
      match skip with
      | S k => re_split_from k cur s'
      | O =>
          match bullet_len s with
          | Some (S k) => rev cur :: re_split_from k [] s'
          | _ => re_split_from 0 (c :: cur) s'
          end
      end
  end.

Definition split_bullets (s : pystr) : list pystr := re_split_from 0 [] s.

(** [s.split(sep)] for a one-character separator. *)
Fixpoint split_from (sep : N) (cur : pystr) (s : pystr) : list pystr :=
  match s with
  | [] => [rev cur]
  | c :: s' =>
      if (c =? sep)%N then rev cur :: split_from sep [] s'
      else split_from sep (c :: cur) s'
  end.

Definition split (sep : N) (s : pystr) : list pystr := split_from sep [] s.

(** [sep.join(l)] *)
Fixpoint join (sep : pystr) (l : list pystr) : pystr :=
  match l with
  | [] => []
  | [x] => x
  | x :: l' => x ++ sep ++ join sep l'
  end.

(** [t.encode("ascii", "ignore").decode("ascii")] *)
Definition ascii_only (t : pystr) : pystr := List.filter is_ascii t.

(** [len(s)] *)
Definition len {A} (l : list A) : Z := Z.of_nat (length l).

End PyStr.
Import PyStr.


(** ** The report processor and the caption index *)

Module Report.

(** The value of [row["impression"]]: a [str], a missing value (NaN) or
    an object of another type. *)
Inductive cell :=
| CStr (s : pystr)
| CNaN
| CObj.

(** A row of [self.df]. *)
Record row := {
  img_path : pystr;
  split_name : pystr;
  impression : cell
}.

(** The lists and the dict that [create_path_2_sent_mapping] fills. *)
Record build_state := {
  sent_lens : list Z;
  num_sents : list Z;
  to_remove : list pystr;
  path2sent : gmap pystr (list pystr)
}.

(** The variables of the loop over the sentences of one report;
    [sl_sent_lens] is the function-level list [sent_lens]. *)
Record sent_state := {
  cnt : Z;
  study_sent : list pystr;
  sl_sent_lens : list Z
}.

(** Lines 148-150: the impression when it is a [str], else the empty
    string. *)
Definition report_text (r : row) : pystr :=
  match impression r with
  | CStr s => s
  | _ => []
  end.

Section WithUnicode.
Variable U : unicode_db.

(** Lines 185-189: the tokens stripped to ASCII, the empty ones
    dropped. *)
Fixpoint filter_tokens (tokens : list pystr) : list pystr :=
  match tokens with
  | [] => []
  | t :: ts =>
      let t := ascii_only t in
      if 0 <? len t then t :: filter_tokens ts else filter_tokens ts
  end.

(** Lines 168-197: [for cap in captions], with its [continue]s and its
    [break]. *)
Fixpoint sentence_loop (max_word_num : Z) (captions : list pystr)
    (st : sent_state) : sent_state :=
  match captions with
  | [] => st
  | cap :: rest =>
      if len cap =? 0 then sentence_loop max_word_num rest st
      else
        let cap := replace_fffd_pairs cap in
        let tokens := tokenize U (lower U cap) in
        if len tokens <=? 1 then sentence_loop max_word_num rest st
        else
          let included_tokens := filter_tokens tokens in
          let study_sent := study_sent st ++ [join (lit " ") included_tokens] in
          let cnt := cnt st + len included_tokens in
          if cnt =? max_word_num
          then {| cnt := cnt; study_sent := study_sent;
                  sl_sent_lens := sl_sent_lens st |}
          else sentence_loop max_word_num rest
                 {| cnt := cnt; study_sent := study_sent;
                    sl_sent_lens := sl_sent_lens st ++ [len included_tokens] |}
  end.

(** What one pass of the loop appends for a candidate that it keeps: the
    join of its filtered tokens. *)
Definition appended_from (cap s : pystr) : Prop :=
  let tokens := tokenize U (lower U (replace_fffd_pairs cap)) in
  cap <> [] /\ 2 <= len tokens /\ s = join (lit " ") (filter_tokens tokens).

(** Lines 157-163: the sentence candidates of a report text. *)
Definition split_sentences (captions : pystr) : list pystr :=
  let captions := replace_newlines captions in
  let captions := split_bullets captions in
  let captions := map (split chr_dot) captions in
  concat captions.

(** Lines 147-204: the body of [for idx, row in df.iterrows()]. *)
Definition row_step (max_word_num : Z) (st : build_state) (r : row)
    : build_state :=
  let captions := report_text r in
  let to_remove :=
    if len captions =? 0 then to_remove st ++ [img_path r]
    else to_remove st in
  let s := sentence_loop max_word_num (split_sentences captions)
             {| cnt := 0; study_sent := []; sl_sent_lens := sent_lens st |} in
  let num_sents := num_sents st ++ [len (study_sent s)] in
  if 0 <? len (study_sent s)
  then {| sent_lens := sl_sent_lens s; num_sents := num_sents;
          to_remove := to_remove;
          path2sent := <[img_path r := study_sent s]> (path2sent st) |}
  else {| sent_lens := sl_sent_lens s; num_sents := num_sents;
          to_remove := to_remove ++ [img_path r];
          path2sent := path2sent st |}.

Definition build_init : build_state :=
  {| sent_lens := []; num_sents := []; to_remove := []; path2sent := ∅ |}.

(** Lines 143-204: the loop over the rows. *)
Definition build_loop (df : list row) (max_word_num : Z) : build_state :=
  fold_left (row_step max_word_num) df build_init.

(** [np.array(l).min()] is the first statistic printed of each list
    and raises [ValueError] on a list without elements; the other
    statistics are defined whenever the minimum is. *)
Definition np_min (l : list Z) : res Z :=
  match l with
  | [] => Raise ValueError
  | x :: l' => Ok (fold_left Z.min l' x)
  end.

Definition create_path_2_sent_mapping (df : list row) (max_word_num : Z)
    : res (gmap pystr (list pystr) * list pystr) :=
  let st := build_loop df max_word_num in
  _ ← np_min (sent_lens st);
  _ ← np_min (num_sents st);
  Ok (path2sent st, to_remove st).

(** The caption file: [None] while [os.path.isfile(filepath)] is false,
    else the pickled pair.  [pickle.load] gives back the value that
    [pickle.dump] was given. *)
Definition cache : Type := option (gmap pystr (list pystr) * list pystr).

(** Lines 69-81 of [load_text_data]: the pair [path2sent, to_remove],
    built and saved or loaded. *)
Definition load_captions (df : list row) (max_word_num : Z) (fs : cache)
    : res (cache * (gmap pystr (list pystr) * list pystr)) :=
  match fs with
  | None =>
      idx ← create_path_2_sent_mapping df max_word_num;
      Ok (Some idx, idx)
  | Some idx => Ok (fs, idx)
  end.

Definition load_text_data (df : list row) (max_word_num : Z)
    (split : pystr) (fs : cache)
    : res (cache * (list pystr * gmap pystr (list pystr))) :=
  '(fs', (path2sent, to_remove)) ← load_captions df max_word_num fs;
  let filenames := img_path <$> filter (λ r, split_name r = split) df in
  let filenames := filter (λ f, f ∉ to_remove) filenames in
  Ok (fs', (filenames, path2sent)).

End WithUnicode.
End Report.
Import Report.

(** ** Caption selection *)

Module Sampler.

(** A program that draws from numpy's global random state and may raise:
    its outcomes, each with its probability. *)
Record prog (A : Type) := Prog { outcomes : list (res A * Q) }.
Arguments Prog {A} outcomes.
Arguments outcomes {A} p.

Definition scale_by {B} (p : Q) (o : res B * Q) : res B * Q :=
  (fst o, (p * snd o)%Q).

#[global] Instance prog_mret : MRet prog := fun A a => Prog [(Ok a, 1%Q)].
#[global] Instance prog_mbind : MBind prog := fun A B k m =>
  Prog (flat_map (fun o : res A * Q =>
                    match fst o with
                    | Ok a => map (scale_by (snd o)) (outcomes (k a))
                    | Raise e => [(Raise e, snd o)]
                    end) (outcomes m)).

Definition raise {A} (e : exn) : prog A := Prog [(Raise e, 1%Q)].

Definition lift {A} (r : res A) : prog A := Prog [(r, 1%Q)].

(** Some outcome is an exception. *)
Definition fails {A} (m : prog A) : Prop :=
  exists e q, (Raise e, q) ∈ outcomes m.

(** An outcome that is a value. *)
Definition is_ok {A} (o : res A * Q) : Prop := exists a, fst o = Ok a.

(** The outcome is the value [i]. *)
Definition is_value (i : Z) (r : res Z) : bool :=
  match r with
  | Ok j => j =? i
  | Raise _ => false
  end.

(** The probability that the outcome satisfies [P]. *)
Definition pr {A} (P : res A -> bool) (m : prog A) : Q :=
  fold_right Qplus 0%Q (map snd (List.filter (fun o => P (fst o)) (outcomes m))).

(** [numpy.random.randint(low, high)]: an integer from the discrete
    uniform distribution on the half-open interval from [low] to [high];
    [ValueError] when the interval is empty. *)
Definition randint (low high : Z) : prog Z :=
  if high <=? low then raise ValueError
  else Prog (map (fun i : nat => (Ok (low + Z.of_nat i), 1 # Z.to_pos (high - low)))
               (seq 0 (Z.to_nat (high - low)))).

(** [l[i]] on a list: a negative index counts from the end. *)
Definition getitem {A} (l : list A) (i : Z) : res A :=
  let j := if i <? 0 then i + len l else i in
  if j <? 0 then Raise IndexError
  else match l !! Z.to_nat j with
       | Some x => Ok x
       | None => Raise IndexError
       end.

(** What the tokenizer returns for one string with [return_tensors="pt"]:
    three tensors of shape [1, max_length], each held as its row. *)
Record encoding := {
  input_ids : list Z;
  token_type_ids : list Z;
  attention_mask : list Z
}.

(** [cfg.data.text] *)
Record text_cfg := {
  full_report : bool; (* [cfg.data.text.full_report is True] *)
  word_num : Z
}.

Section WithTokenizer.
(** [self.tokenizer(sent, return_tensors="pt", truncation=True,
    padding="max_length", max_length=n)] *)
Variable tokenizer : pystr -> Z -> encoding.

(** Lines 97-101: the text to tokenize. *)
Definition select_sent (cfg : text_cfg) (series_sents : list pystr)
    : prog pystr :=
  if full_report cfg then mret (join (lit " ") series_sents)
  else
    sent_ix ← randint 0 (len series_sents);
    lift (getitem series_sents sent_ix).

Definition get_caption (cfg : text_cfg)
    (path2sent : gmap pystr (list pystr)) (path : pystr)
    : prog (encoding * Z) :=
  match path2sent !! path with
  | None => raise KeyError
  | Some series_sents =>
      if len series_sents =? 0 then raise NoSentence
      else
        sent ← select_sent cfg series_sents;
        let tokens := tokenizer sent (word_num cfg) in
        let x_len := len (List.filter (fun t => negb (t =? 0)) (input_ids tokens)) in
        mret (tokens, x_len)
  end.
End WithTokenizer.
End Sampler.
Import Sampler.

(** ** The image normalizer *)

Module Image.

(** A two-dimensional numpy array: its shape and its rows. *)
Record ndarray := {
  nrows : nat;
  ncols : nat;
  data : list (list Z)
}.

Definition well_shaped (a : ndarray) : Prop :=
  length (data a) = nrows a /\ Forall (fun r => length r = ncols a) (data a).

(** [float(z)] of an [int]: the nearest double; [OverflowError] beyond
    the doubles. *)
Definition float_of_int (z : Z) : res float :=
  match binary_normalize prec emax z 0 false with
  | S754_infinity _ => Raise OverflowError
  | sf => Ok (SF2Prim sf)
  end.

(** [int(f)] of a [float]: truncation towards zero. *)
Definition int_of_float (f : float) : res Z :=
  match Prim2SF f with
  | S754_zero _ => Ok 0
  | S754_finite s m e =>
      let v := if 0 <=? e then Z.shiftl (Z.pos m) e
               else Z.shiftr (Z.pos m) (- e) in
      Ok (if s then - v else v)
  | S754_infinity _ => Raise OverflowError
  | S754_nan => Raise ValueError
  end.

(** Lines 233-234 and 238-239: [percent = scale / float(a)] and then
    [int(float(b) * float(percent))]. *)
Definition scaled_dim (scale a b : Z) : res Z :=
  fa ← float_of_int a;
  fscale ← float_of_int scale;
  if PrimFloat.is_zero fa then Raise ZeroDivisionError
  else
    let percent := (fscale / fa)%float in
    fb ← float_of_int b;
    int_of_float (fb * percent)%float.

(** [np.pad(a, [(top, bottom), (left, right)], "constant",
    constant_values=0)] *)
Definition np_pad (a : ndarray) (top bottom left right : Z) : res ndarray :=
  if (top <? 0) || (bottom <? 0) || (left <? 0) || (right <? 0)
  then Raise ValueError
  else
    let w := (Z.to_nat left + ncols a + Z.to_nat right)%nat in
    Ok {| nrows := Z.to_nat top + nrows a + Z.to_nat bottom;
          ncols := w;
          data := repeat (repeat 0 w) (Z.to_nat top)
                  ++ map (fun r => repeat 0 (Z.to_nat left) ++ r
                                   ++ repeat 0 (Z.to_nat right)) (data a)
                  ++ repeat (repeat 0 w) (Z.to_nat bottom) |}.

Section WithInterpolation.
(** The pixels that area interpolation computes for a result of the
    given width and height. *)
Variable inter_area : ndarray -> nat -> nat -> list (list Z).

(** [cv2.resize(img, dsize, interpolation=cv2.INTER_AREA)] with
    [dsize = (width, height)]: OpenCV refuses an empty source and a
    size that is not positive or does not fit a C [int]. *)
Definition cv2_resize (img : ndarray) (dsize : Z * Z) : res ndarray :=
  let '(w, h) := dsize in
  if ((nrows img =? 0) || (ncols img =? 0))%nat then Raise Cv2Error
  else if (1 <=? w) && (w <? 2 ^ 31) && (1 <=? h) && (h <? 2 ^ 31)
  then Ok {| nrows := Z.to_nat h; ncols := Z.to_nat w;
             data := inter_area img (Z.to_nat w) (Z.to_nat h) |}
  else Raise Cv2Error.

(** [pad_size / 2] is exact in doubles for the sizes that reach this
    point, so [np.floor] and [np.ceil] of it are the integer floor and
    ceiling. *)
Definition _resize_img (img : ndarray) (scale : Z) : res ndarray :=
  let size := (Z.of_nat (nrows img), Z.of_nat (ncols img)) in
  let max_dim := Z.max (fst size) (snd size) in
  let max_ind := if fst size =? max_dim then 0 else 1 in
  desireable_size ←
    (if max_ind =? 0
     then hsize ← scaled_dim scale (fst size) (snd size); Ok (scale, hsize)
     else wsize ← scaled_dim scale (snd size) (fst size); Ok (wsize, scale));
  resized_img ← cv2_resize img (snd desireable_size, fst desireable_size);
  if max_ind =? 0
  then
    let pad_size := scale - Z.of_nat (ncols resized_img) in
    let left := pad_size / 2 in
    let right := (pad_size + 1) / 2 in
    np_pad resized_img 0 0 left right
  else
    let pad_size := scale - Z.of_nat (nrows resized_img) in
    let top := pad_size / 2 in
    let bottom := (pad_size + 1) / 2 in
    np_pad resized_img top bottom 0 0.
End WithInterpolation.

(** A stand-in for the interpolation, for running examples: nearest
    source pixel. *)
Definition nearest (img : ndarray) (w h : nat) : list (list Z) :=
  map (fun i => map (fun j => nth (j * ncols img / w) (nth (i * nrows img / h) (data img) []) 0)
                    (seq 0 w))
      (seq 0 h).

Definition blank (h w : nat) (v : Z) : ndarray :=
  {| nrows := h; ncols := w; data := repeat (repeat v w) h |}.
End Image.
Import Image.

(** ** Batch assembly *)

Module Torch.

(** A tensor as nested rows. *)
#[warnings="-register-all"]
Inductive tensor (A : Type) :=
| Scalar (x : A)
| Rows (ts : list (tensor A)).
Arguments Scalar {A} x.
Arguments Rows {A} ts.

Fixpoint shape {A} (t : tensor A) : list nat :=
  match t with
  | Scalar _ => []
  | Rows ts => length ts :: match ts with [] => [] | t' :: _ => shape t' end
  end.

(** [torch.stack(ts)]: refuses the empty list and tensors of different
    shapes. *)
Definition stack {A} (ts : list (tensor A)) : res (tensor A) :=
  match ts with
  | [] => Raise RuntimeError
  | t :: rest =>
      if forallb (fun t' => bool_decide (shape t' = shape t)) rest
      then Ok (Rows ts) else Raise RuntimeError
  end.

(** [t.squeeze()]: every dimension of size one goes. *)
Fixpoint squeeze {A} (t : tensor A) : tensor A :=
  match t with
  | Scalar x => Scalar x
  | Rows ts =>
      match ts with
      | [t'] => squeeze t'
      | _ => Rows (map squeeze ts)
      end
  end.

(** [t[idx]] for a one-dimensional index tensor: the selected rows. *)
Definition index_rows {A} (t : tensor A) (idx : list nat) : res (tensor A) :=
  match t with
  | Scalar _ => Raise IndexError
  | Rows ts =>
      rows ← mapM (fun i => match nth_error ts i with
                            | Some r => Ok r
                            | None => Raise IndexError
                            end) idx;
      Ok (Rows rows)
  end.

Fixpoint insert_desc (x : Z * nat) (l : list (Z * nat)) : list (Z * nat) :=
  match l with
  | [] => [x]
  | y :: l' => if fst y <=? fst x then x :: y :: l' else y :: insert_desc x l'
  end.

(** [torch.sort(torch.tensor(l), 0, True)]: the values in non-increasing
    order and the positions they came from.  torch leaves the order of
    equal values open; here they keep their original order. *)
Definition sort_descending (l : list Z) : list Z * list nat :=
  let s := fold_right insert_desc [] (combine l (seq 0 (length l))) in
  (map fst s, map snd s).
End Torch.
Import Torch.

Module Collate.
Section WithPixel.
Variable pixel : Type.

(** The tuple [(img, cap, cap_l, p)] that [__getitem__] returns. *)
Record sample := {
  s_img : tensor pixel;
  s_cap : encoding;
  s_cap_l : Z;
  s_p : pystr
}.

(** [return_dict] *)
Record batch_dict := {
  caption_ids : tensor Z;
  token_type_ids : tensor Z;
  attention_mask : tensor Z;
  imgs : tensor pixel;
  cap_lens : list Z;
  path : list pystr
}.

(** The [1, max_length] tensor of a row of the encoding. *)
Definition as_tensor (row : list Z) : tensor Z := Rows [Rows (map Scalar row)].

Definition multimodal_collate_fn (batch : list sample) : res batch_dict :=
  (* flatten *)
  let imgs := map s_img batch in
  let cap_len := map s_cap_l batch in
  let ids := map (fun b => as_tensor (Sampler.input_ids (s_cap b))) batch in
  let tokens := map (fun b => as_tensor (Sampler.token_type_ids (s_cap b))) batch in
  let attention := map (fun b => as_tensor (Sampler.attention_mask (s_cap b))) batch in
  let path := map s_p batch in
  (* stack *)
  imgs ← stack imgs;
  ids ← squeeze <$> stack ids;
  tokens ← squeeze <$> stack tokens;
  attention ← squeeze <$> stack attention;
  (* sort and add to dictionary *)
  let '(sorted_cap_lens, sorted_cap_indices) := sort_descending cap_len in
  caption_ids ← index_rows ids sorted_cap_indices;
  token_type_ids ← index_rows tokens sorted_cap_indices;
  attention_mask ← index_rows attention sorted_cap_indices;
  imgs ← index_rows imgs sorted_cap_indices;
  Ok {| caption_ids := caption_ids;
        token_type_ids := token_type_ids;
        attention_mask := attention_mask;
        imgs := imgs;
        cap_lens := sorted_cap_lens;
        path := path |}.
End WithPixel.
Arguments s_img {pixel} s.
Arguments s_cap {pixel} s.
Arguments s_cap_l {pixel} s.
Arguments s_p {pixel} s.
Arguments caption_ids {pixel} b.
Arguments token_type_ids {pixel} b.
Arguments attention_mask {pixel} b.
Arguments imgs {pixel} b.
Arguments cap_lens {pixel} b.
Arguments path {pixel} b.
Arguments multimodal_collate_fn {pixel} batch.
End Collate.
Import Collate.

(** ** One report at a time *)

Module PerReport.

(** A character that a stored token is made of: an ASCII letter, an ASCII
    digit or the underscore. *)
Definition ascii_word_char (c : N) : bool :=
  is_digit c || is_upper c || is_lower c || (c =? chr_underscore)%N.

(** Lines 157-198 for one report text, away from the statistics: the
    sentence loop of [row_step] started on the candidates of the text. *)
Definition report_sentences (U : unicode_db) (max_word_num : Z)
    (text : pystr) : list pystr :=
  study_sent (sentence_loop U max_word_num (split_sentences text)
                {| cnt := 0; study_sent := []; sl_sent_lens := [] |}).

(** The order of the pairs that [sort_descending] sorts: non-increasing
    values. *)
Definition desc (a b : Z * nat) : Prop := fst b <= fst a.

End PerReport.
Import PerReport.

(** ** The dataset constructor *)

Module Dataset.

(** Rows of the three tables that [__init__] reads: the split table, the
    metadata table and the table of report sections, with the columns
    that the class uses.  [subject_id] and [study_id] are integer columns
    and [dicom_id] is a string column, as in MIMIC-CXR. *)
Record split_row := {
  sp_dicom_id : pystr;
  sp_study_id : Z;
  sp_subject_id : Z;
  sp_split : pystr
}.

Record meta_row := {
  me_dicom_id : pystr;
  me_study_id : Z;
  me_subject_id : Z;
  me_ViewPosition : cell
}.

Record section_row := {
  se_study_id : Z;
  se_impression : cell
}.

(** [cfg], as far as the class reads it. *)
Record config := {
  captions_per_image : Z; (* [cfg.data.text.captions_per_image] *)
  text : text_cfg;        (* [cfg.data.text] *)
  imsize : Z              (* [cfg.data.image.imsize] *)
}.

Definition chr_slash : N := 47.

(** [str(z)] of an [int]: its decimal digits, after a minus sign when it
    is negative. *)
Definition str_of_int (z : Z) : pystr :=
  lit (NilZero.string_of_int (Z.to_int z)).

(** [series.duplicated().any()] *)
Definition any_duplicated {A} `{EqDecision A} (l : list A) : bool :=
  negb (bool_decide (NoDup l)).

(** [split_df.merge(meta_df, on=["dicom_id", "study_id", "subject_id"])]:
    an inner join, in the order of the left rows. *)
Definition merge_on_ids (split_df : list split_row) (meta_df : list meta_row)
    : list (split_row * meta_row) :=
  flat_map (fun l =>
              map (pair l)
                (filter (fun r => (me_dicom_id r, me_study_id r, me_subject_id r)
                                  = (sp_dicom_id l, sp_study_id l, sp_subject_id l))
                   meta_df))
    split_df.

(** [.merge(section_df, on="study_id")] *)
Definition merge_on_study (left : list (split_row * meta_row))
    (section_df : list section_row)
    : list (split_row * meta_row * section_row) :=
  flat_map (fun l =>
              map (pair l)
                (filter (fun s => se_study_id s = sp_study_id (fst l)) section_df))
    left.

(** Lines 44-54: the image path of a merged row. *)
Definition make_img_path (subject_id study_id : Z) (dicom_id : pystr) : pystr :=
  lit "/opt/gpudata/mimic-cxr/files/p"
  ++ take 2 (str_of_int subject_id)
  ++ lit "/p" ++ str_of_int subject_id
  ++ lit "/s" ++ str_of_int study_id
  ++ lit "/" ++ dicom_id
  ++ lit ".jpg".

(** Lines 55-58: the view position is AP or PA and the impression is not
    missing. *)
Definition isin_AP_PA (c : cell) : bool :=
  match c with
  | CStr s => bool_decide (s = lit "AP") || bool_decide (s = lit "PA")
  | _ => false
  end.

Definition notnull (c : cell) : bool :=
  match c with
  | CNaN => false
  | _ => true
  end.

Definition keep_row (x : split_row * meta_row * section_row) : bool :=
  isin_AP_PA (me_ViewPosition (snd (fst x))) && notnull (se_impression (snd x)).

Definition to_row (x : split_row * meta_row * section_row) : row :=
  {| img_path := make_img_path (sp_subject_id (fst (fst x)))
                   (sp_study_id (fst (fst x))) (sp_dicom_id (fst (fst x)));
     split_name := sp_split (fst (fst x));
     impression := se_impression (snd x) |}.

(** Lines 37-58: [self.df]. *)
Definition make_df (split_df : list split_row) (meta_df : list meta_row)
    (section_df : list section_row) : list row :=
  to_row <$> List.filter keep_row
               (merge_on_study (merge_on_ids split_df meta_df) section_df).

(** What [__init__] may raise: a failed assertion, or what
    [load_text_data] raises. *)
Inductive init_exn :=
| AssertionError
| Build (e : exn).

Inductive init_res (A : Type) :=
| Built (a : A)
| Failed (e : init_exn).
Arguments Built {A} a.
Arguments Failed {A} e.

(** The attributes that [__init__] sets from the tables. *)
Record dataset := {
  self_cfg : config;
  self_max_word_num : Z;
  self_df : list row;
  self_filenames : list pystr;
  self_path2sent : gmap pystr (list pystr)
}.

Definition __init__ (U : unicode_db) (cfg : config) (split : pystr)
    (split_df : list split_row) (meta_df : list meta_row)
    (section_df : list section_row) (fs : cache)
    : init_res (cache * dataset) :=
  let split := if bool_decide (split = lit "valid") then lit "validate" else split in
  let max_word_num := captions_per_image cfg in
  if any_duplicated (sp_dicom_id <$> split_df) then Failed AssertionError
  else if any_duplicated (me_dicom_id <$> meta_df) then Failed AssertionError
  else if any_duplicated (se_study_id <$> section_df) then Failed AssertionError
  else
    let df := make_df split_df meta_df section_df in
    match load_text_data U df max_word_num split fs with
    | Ok (fs', (filenames, path2sent)) =>
        Built (fs', {| self_cfg := cfg;
                       self_max_word_num := max_word_num;
                       self_df := df;
                       self_filenames := filenames;
                       self_path2sent := path2sent |})
    | Raise e => Failed (Build e)
    end.

(** [__len__] *)
Definition __len__ (self : dataset) : Z := len (self_filenames self).

End Dataset.
Import Dataset.

(** ** Concrete inputs *)

Module Examples.

Definition mk_row (p split text : string) : row :=
  {| img_path := lit p; split_name := lit split; impression := CStr (lit text) |}.

(** Two records on one image path, the second with an empty report. *)
Definition df_same_path : list row :=
  [mk_row "p10/s1/a.jpg" "train" "No pneumothorax.";
   mk_row "p10/s1/a.jpg" "train" ""].

(** Two records on different paths, the second with an empty report. *)
Definition df_two : list row :=
  [mk_row "p10/s1/a.jpg" "train" "No pneumothorax.";
   mk_row "p10/s2/b.jpg" "train" ""].

(** A stand-in for the tokenizer, for running examples: one id per code
    point. *)
Definition char_tokenizer (s : pystr) (max_length : Z) : encoding :=
  {| input_ids := Z.of_N <$> s;
     Sampler.token_type_ids := (fun _ => 0) <$> s;
     Sampler.attention_mask := (fun _ => 1) <$> s |}.

Definition cfg_random : text_cfg := {| full_report := false; word_num := 97 |}.

(** The variables of the sentence loop at the start of a report. *)
Definition sent_init : sent_state :=
  {| cnt := 0; study_sent := []; sl_sent_lens := [] |}.

(** Three sentences of two words each. *)
Definition report_three : pystr :=
  lit "No pneumothorax. Clear lungs. No effusion.".

(** Two words without an ASCII character: e-acute, u-diaeresis. *)
Definition report_accents : pystr := [233; 32; 252; 46]%N.

Definition mk_sample (px tok cap_l : Z) (p : string) : sample Z :=
  {| s_img := Rows [Rows [Scalar px; Scalar px]];
     s_cap := {| input_ids := [101; tok; 102; 0];
                 Sampler.token_type_ids := [0; 0; 0; 0];
                 Sampler.attention_mask := [1; 1; 1; 0] |};
     s_cap_l := cap_l;
     s_p := lit p |}.

(** Three samples with caption lengths 5, 12 and 8. *)
Definition batch3 : list (sample Z) :=
  [mk_sample 10 7 5 "a.jpg"; mk_sample 20 8 12 "b.jpg"; mk_sample 30 9 8 "c.jpg"].

(** Three images of two studies of one subject; the third is a lateral
    view. *)
Definition split_table : list split_row :=
  [{| sp_dicom_id := lit "02aa"; sp_study_id := 50414267;
      sp_subject_id := 10000032; sp_split := lit "train" |};
   {| sp_dicom_id := lit "17bb"; sp_study_id := 53189527;
      sp_subject_id := 10000032; sp_split := lit "validate" |};
   {| sp_dicom_id := lit "68cc"; sp_study_id := 53189527;
      sp_subject_id := 10000032; sp_split := lit "validate" |}].

Definition meta_table : list meta_row :=
  [{| me_dicom_id := lit "02aa"; me_study_id := 50414267;
      me_subject_id := 10000032; me_ViewPosition := CStr (lit "PA") |};
   {| me_dicom_id := lit "17bb"; me_study_id := 53189527;
      me_subject_id := 10000032; me_ViewPosition := CStr (lit "AP") |};
   {| me_dicom_id := lit "68cc"; me_study_id := 53189527;
      me_subject_id := 10000032; me_ViewPosition := CStr (lit "LATERAL") |}].

Definition section_table : list section_row :=
  [{| se_study_id := 50414267; se_impression := CStr (lit "No pneumothorax.") |};
   {| se_study_id := 53189527; se_impression := CStr (lit "Clear lungs. No effusion.") |}].

Definition cfg_example : config :=
  {| captions_per_image := 5;
     text := {| full_report := false; word_num := 97 |};
     imsize := 224 |}.

(** The records of an earlier run, and the caption file that the run
    wrote. *)
Definition df_old : list row :=
  [mk_row "p10/s1/a.jpg" "train" "No pneumothorax."].

Definition old_cache : cache :=
  Some (path2sent (build_loop latin1 df_old 5),
        to_remove (build_loop latin1 df_old 5)).

(** The records of a later run: one more image. *)
Definition df_new : list row :=
  [mk_row "p10/s1/a.jpg" "train" "No pneumothorax.";
   mk_row "p10/s3/c.jpg" "train" "Clear lungs."].

End Examples.
Import Examples.

(** * Properties *)

(** ** The caption index *)

Section BuildFacts.
Variable U : unicode_db.
Variable max_word_num : Z.

Implicit Types (st : build_state) (r : row) (df : list row).

Lemma len_zero_nil {A} (l : list A) : (len l =? 0) = true -> l = [].
Proof.
  destruct l; [done |]. unfold len. intros H%Z.eqb_eq. simpl in H. lia.
Qed.

Lemma len_pos_cons {A} (l : list A) : (0 <? len l) = true -> l <> [].
Proof.
  destruct l; [| done]. unfold len. intros H%Z.ltb_lt. simpl in H. lia.
Qed.

Lemma split_sentences_empty : split_sentences [] = [[]].
Proof. reflexivity. Qed.

(** What one row does to the mapping and to the exclusion list. *)
Lemma row_step_cases st r :
  let st' := row_step U max_word_num st r in
  (exists sents, sents <> [] /\ report_text r <> []
     /\ path2sent st' = <[img_path r := sents]> (path2sent st)
     /\ to_remove st' = to_remove st)
  \/ (report_text r <> []
      /\ path2sent st' = path2sent st
      /\ to_remove st' = to_remove st ++ [img_path r])
  \/ (report_text r = []
      /\ path2sent st' = path2sent st
      /\ to_remove st' = to_remove st ++ [img_path r; img_path r]).
Proof.
  unfold row_step. simpl.
  destruct (len _ =? 0) eqn:Hlen.
  - apply len_zero_nil in Hlen. rewrite Hlen. simpl.
    right. right. by rewrite <- app_assoc.
  - assert (report_text r <> []) as Hne.
    { intros E. rewrite E in Hlen. done. }
    destruct (0 <? len _) eqn:Hs; simpl.
    + left. eexists. split; [by apply len_pos_cons in Hs | done].
    + right. left. done.
Qed.

#[local] Abbreviation run df st := (fold_left (row_step U max_word_num) df st).

Lemma run_union df st :
  dom (path2sent (run df st)) ∪ list_to_set (to_remove (run df st))
  = dom (path2sent st) ∪ list_to_set (to_remove st)
    ∪ (list_to_set (img_path <$> df) : gset pystr).
Proof.
  revert st. induction df as [| r df IH]; intros st; simpl.
  - set_solver.
  - rewrite IH.
    destruct (row_step_cases st r)
      as [(s & _ & _ & -> & ->) | [(_ & -> & ->) | (_ & -> & ->)]];
      rewrite ?dom_insert_L, ?list_to_set_app_L; set_solver.
Qed.

Lemma run_nonempty df st :
  (forall p s, path2sent st !! p = Some s -> s <> []) ->
  forall p s, path2sent (run df st) !! p = Some s -> s <> [].
Proof.
  revert st. induction df as [| r df IH]; intros st Hst; simpl; [done |].
  apply IH. intros p s.
  destruct (row_step_cases st r)
    as [(s' & Hs' & _ & -> & _) | [(_ & -> & _) | (_ & -> & _)]]; eauto.
  destruct (decide (img_path r = p)) as [-> |].
  - rewrite lookup_insert_eq. congruence.
  - rewrite lookup_insert_ne by done. eauto.
Qed.

Lemma run_disjoint df st :
  NoDup (img_path <$> df) ->
  (forall p, p ∈ (img_path <$> df) ->
             (p ∉ dom (path2sent st)) /\ (p ∉ to_remove st)) ->
  (forall p, p ∈ dom (path2sent st) -> p ∉ to_remove st) ->
  forall p, p ∈ dom (path2sent (run df st)) -> p ∉ to_remove (run df st).
Proof.
  revert st. induction df as [| r df IH]; intros st Hnd Hfresh Hdis; simpl;
    [done |].
  rewrite fmap_cons in Hnd, Hfresh. apply NoDup_cons in Hnd as [Hr Hnd].
  destruct (Hfresh (img_path r)) as [Hr1 Hr2]; [left |].
  apply IH; [done | |].
  - intros p Hp. assert (p <> img_path r) by (intros ->; done).
    destruct (Hfresh p) as [Hp1 Hp2]; [by right |].
    destruct (row_step_cases st r)
      as [(s & _ & _ & -> & ->) | [(_ & -> & ->) | (_ & -> & ->)]];
      rewrite ?dom_insert_L; set_solver.
  - intros p.
    destruct (row_step_cases st r)
      as [(s & _ & _ & -> & ->) | [(_ & -> & ->) | (_ & -> & ->)]];
      rewrite ?dom_insert_L; intros Hp.
    + apply elem_of_union in Hp as [->%elem_of_singleton | Hp]; eauto.
    + specialize (Hdis p Hp). set_solver.
    + specialize (Hdis p Hp). set_solver.
Qed.

Lemma run_to_remove_grows df st :
  exists tail, to_remove (run df st) = to_remove st ++ tail.
Proof.
  revert st. induction df as [| r df IH]; intros st; simpl.
  - exists []. by rewrite app_nil_r.
  - destruct (IH (row_step U max_word_num st r)) as [tail ->].
    destruct (row_step_cases st r)
      as [(s & _ & _ & _ & ->) | [(_ & _ & ->) | (_ & _ & ->)]];
      eexists; by rewrite <- ?app_assoc.
Qed.

(** When [create_path_2_sent_mapping] returns, it returns what the loop
    has built. *)
Lemma create_returns_loop_state df m rm :
  create_path_2_sent_mapping U df max_word_num = Ok (m, rm) ->
  m = path2sent (build_loop U df max_word_num)
  /\ rm = to_remove (build_loop U df max_word_num).
Proof.
  unfold create_path_2_sent_mapping.
  destruct (np_min (sent_lens _)); [| done].
  destruct (np_min (num_sents _)); [| done].
  simpl. intros [= <- <-]. done.
Qed.

Lemma run_num_sents_length df st :
  length (num_sents (run df st)) = (length (num_sents st) + length df)%nat.
Proof.
  revert st. induction df as [| r df IH]; intros st; simpl; [lia |].
  rewrite IH. unfold row_step. simpl.
  destruct (0 <? len _); simpl; rewrite length_app; simpl; lia.
Qed.

(** It returns as soon as one sentence length has been recorded. *)
Lemma create_returns df :
  sent_lens (build_loop U df max_word_num) <> [] ->
  create_path_2_sent_mapping U df max_word_num
  = Ok (path2sent (build_loop U df max_word_num),
        to_remove (build_loop U df max_word_num)).
Proof.
  intros Hne. unfold create_path_2_sent_mapping.
  destruct (sent_lens _) as [| x l] eqn:Hsl; [done |]. simpl.
  destruct (num_sents _) as [| y l'] eqn:Hns; [| done].
  pose proof (run_num_sents_length df build_init) as Hlen.
  unfold build_loop in Hns. rewrite Hns in Hlen. simpl in Hlen.
  destruct df; [done | simpl in Hlen; lia].
Qed.
End BuildFacts.

(** The partition of the input paths, shared by the statements below. *)
Lemma caption_index_partition_aux U max_word_num df m rm :
  create_path_2_sent_mapping U df max_word_num = Ok (m, rm) ->
  dom m ∪ list_to_set rm = (list_to_set (img_path <$> df) : gset pystr)
  /\ (NoDup (img_path <$> df) -> forall p, p ∈ dom m -> p ∉ rm).
Proof.
  intros [-> ->]%create_returns_loop_state. unfold build_loop. split.
  - rewrite run_union. simpl. set_solver.
  - intros Hnd. apply run_disjoint; [done | |]; simpl; set_solver.
Qed.

(** Two records on one image path, the second with an empty report: the
    path is a key of the mapping and is in the exclusion list. *)
Example repeated_path_is_key_and_excluded :
  exists m rm,
    create_path_2_sent_mapping latin1 df_same_path 5 = Ok (m, rm)
    /\ m !! lit "p10/s1/a.jpg" = Some [lit "no pneumothorax"]
    /\ lit "p10/s1/a.jpg" ∈ rm.
Proof.
  eexists _, _. split; [vm_compute; reflexivity |].
  split; [vm_compute; reflexivity |]. set_solver.
Qed.


(** C10: a record whose report is the empty string, or is not a string,
    has its image path appended to the exclusion list twice in a row, so
    the list has a repeated element; the list returned is that list. *)
Theorem empty_report_path_excluded_twice U max_word_num pre r post :
  impression r = CStr [] \/ impression r = CObj ->
  (exists tail,
      to_remove (build_loop U (pre ++ r :: post) max_word_num)
      = to_remove (build_loop U pre max_word_num)
        ++ [img_path r; img_path r] ++ tail)
  /\ ~ NoDup (to_remove (build_loop U (pre ++ r :: post) max_word_num))
  /\ (forall m rm,
        create_path_2_sent_mapping U (pre ++ r :: post) max_word_num = Ok (m, rm) ->
        rm = to_remove (build_loop U (pre ++ r :: post) max_word_num)).
Proof.
  intros Hr.
  assert (report_text r = []) as Htxt
    by (unfold report_text; destruct Hr as [-> | ->]; done).
  assert (exists tail,
      to_remove (build_loop U (pre ++ r :: post) max_word_num)
      = to_remove (build_loop U pre max_word_num)
        ++ [img_path r; img_path r] ++ tail) as [tail Htail].
  { unfold build_loop. rewrite fold_left_app. simpl.
    destruct (run_to_remove_grows U max_word_num post
                (row_step U max_word_num
                   (fold_left (row_step U max_word_num) pre build_init) r))
      as [tail ->].
    destruct (row_step_cases U max_word_num
                (fold_left (row_step U max_word_num) pre build_init) r)
      as [(s & _ & Hne & _) | [(Hne & _) | (_ & _ & ->)]]; [done | done |].
    exists tail. by rewrite <- app_assoc. }
  split; [by exists tail |]. split.
  - rewrite Htail. intros Hnd. apply NoDup_app in Hnd as (_ & _ & Hnd).
    apply NoDup_cons in Hnd as [Hnot _]. apply Hnot. left.
  - intros m rm Hc. by apply create_returns_loop_state in Hc as [_ ->].
Qed.

Lemma empty_report_path_excluded_twice_witness :
  (impression (mk_row "p10/s2/b.jpg" "train" "") = CStr []
   \/ impression (mk_row "p10/s2/b.jpg" "train" "") = CObj)
  /\ exists tail,
      to_remove (build_loop latin1
                   ([mk_row "p10/s1/a.jpg" "train" "No pneumothorax."]
                    ++ mk_row "p10/s2/b.jpg" "train" "" :: []) 5)
      = to_remove (build_loop latin1
                     [mk_row "p10/s1/a.jpg" "train" "No pneumothorax."] 5)
        ++ [lit "p10/s2/b.jpg"; lit "p10/s2/b.jpg"] ++ tail.
Proof.
  assert (impression (mk_row "p10/s2/b.jpg" "train" "") = CStr []
          \/ impression (mk_row "p10/s2/b.jpg" "train" "") = CObj) as H
    by (left; reflexivity).
  split; [exact H |].
  exact (proj1 (empty_report_path_excluded_twice latin1 5
                  [mk_row "p10/s1/a.jpg" "train" "No pneumothorax."]
                  (mk_row "p10/s2/b.jpg" "train" "") [] H)).
Defined.

(** ** Caption selection *)

Section SamplerFacts.
Variable tokenizer : pystr -> Z -> encoding.
Variable cfg : text_cfg.

Lemma len_pos {A} (l : list A) : l <> [] -> 0 < len l.
Proof. destruct l; [done |]. unfold len. simpl. lia. Qed.

Lemma randint_outcomes (n : Z) :
  0 < n ->
  outcomes (randint 0 n)
  = map (fun i : nat => (Ok (Z.of_nat i), 1 # Z.to_pos n)) (seq 0 (Z.to_nat n)).
Proof.
  intros Hn. unfold randint.
  destruct (n <=? 0) eqn:E; [apply Z.leb_le in E; lia |].
  simpl. by rewrite Z.sub_0_r.
Qed.

Lemma pr_is_value_seq (w : Q) (i : Z) (n k : nat) :
  Qeq (pr (is_value i)
         (Prog (map (fun j : nat => (Ok (Z.of_nat j), w)) (seq k n))))
      (if bool_decide (Z.of_nat k <= i < Z.of_nat (k + n)) then w else 0%Q).
Proof.
  unfold pr. simpl. revert k. induction n as [| n IH]; intros k; simpl.
  - rewrite bool_decide_eq_false_2 by lia. reflexivity.
  - destruct (Z.of_nat k =? i) eqn:E; simpl.
    + apply Z.eqb_eq in E. rewrite IH.
      rewrite bool_decide_eq_false_2 by lia.
      rewrite bool_decide_eq_true_2 by lia. apply Qplus_0_r.
    + apply Z.eqb_neq in E. rewrite IH.
      destruct (decide (Z.of_nat (S k) <= i < Z.of_nat (S k + n))).
      * rewrite !bool_decide_eq_true_2 by lia. reflexivity.
      * rewrite !bool_decide_eq_false_2 by lia. reflexivity.
Qed.

Lemma getitem_lookup {A} (l : list A) (i : nat) (x : A) :
  l !! i = Some x -> getitem l (Z.of_nat i) = Ok x.
Proof.
  intros H. unfold getitem.
  destruct (Z.of_nat i <? 0) eqn:E; [apply Z.ltb_lt in E; lia |].
  rewrite E, Nat2Z.id, H. done.
Qed.

Lemma select_sent_random_outcomes sents :
  full_report cfg = false -> sents <> [] ->
  outcomes (select_sent cfg sents)
  = map (fun i : nat => (getitem sents (Z.of_nat i), (1 # Z.to_pos (len sents)) * 1)%Q)
      (seq 0 (length sents)).
Proof.
  intros Hmode Hne. unfold select_sent. rewrite Hmode.
  unfold mbind, prog_mbind. simpl.
  rewrite randint_outcomes by (by apply len_pos).
  unfold len. rewrite Nat2Z.id.
  generalize (seq 0 (length sents)). intros l.
  induction l as [| i l IH]; [done |]. simpl. by rewrite IH.
Qed.

Lemma select_sent_random_never_raises sents :
  full_report cfg = false -> sents <> [] ->
  Forall2 (fun o s => fst o = Ok s /\ (snd o == 1 # Z.to_pos (len sents))%Q)
    (outcomes (select_sent cfg sents)) sents.
Proof.
  intros Hmode Hne. rewrite select_sent_random_outcomes by done.
  apply Forall2_same_length_lookup. split.
  - by rewrite length_map, length_seq.
  - intros i o s Ho Hs. rewrite list_lookup_fmap in Ho.
    destruct (seq 0 (length sents) !! i) as [j |] eqn:Hj; [| done].
    apply lookup_seq in Hj as [-> _]. simpl in Ho. injection Ho as <-.
    simpl. split; [by apply getitem_lookup | apply Qmult_1_r].
Qed.

Lemma not_fails_all_ok {A} (m : prog A) :
  Forall is_ok (outcomes m) -> ~ fails m.
Proof.
  intros Hall (e & q & Hin). rewrite Forall_forall in Hall.
  destruct (Hall _ Hin) as [a Ha]. done.
Qed.

Lemma bind_all_ok {A B} (m : prog A) (k : A -> prog B) :
  Forall is_ok (outcomes m) -> (forall a, Forall is_ok (outcomes (k a))) ->
  Forall is_ok (outcomes (m ≫= k)).
Proof.
  intros Hm Hk. unfold mbind, prog_mbind. simpl.
  induction Hm as [| o l [a Ha] _ IH]; simpl; [constructor |].
  apply Forall_app. split; [| done]. rewrite Ha.
  specialize (Hk a). induction Hk as [| o' l' [b Hb] _ IH']; simpl;
    constructor; [by exists b | done].
Qed.

Lemma select_sent_all_ok sents :
  sents <> [] -> Forall is_ok (outcomes (select_sent cfg sents)).
Proof.
  intros Hne. destruct (full_report cfg) eqn:Hmode.
  - unfold select_sent. rewrite Hmode. repeat constructor. by eexists.
  - pose proof (select_sent_random_never_raises sents Hmode Hne) as H.
    induction H as [| o s l l' [Ho _] _ IH]; constructor; [by exists s | done].
Qed.

Lemma get_caption_cases path2sent p sents :
  path2sent !! p = Some sents ->
  (sents = [] -> get_caption tokenizer cfg path2sent p = raise NoSentence)
  /\ (sents <> [] ->
      Forall is_ok (outcomes (get_caption tokenizer cfg path2sent p))).
Proof.
  intros Hp. unfold get_caption. rewrite Hp. split.
  - by intros ->.
  - intros Hne. destruct (len sents =? 0) eqn:E.
    + by apply len_zero_nil in E.
    + apply bind_all_ok; [by apply select_sent_all_ok |].
      intros a. repeat constructor. by eexists.
Qed.
End SamplerFacts.

(** C8: in random_sentence mode, on a non-empty collection, the index is
    drawn by [randint(0, len)], whose outcomes are the indices 0 to
    len - 1, each once and each with probability 1/len (so the index len
    is not among them); the program has exactly one outcome per position
    of the collection, the sentence at that position, with probability
    1/len, and no outcome is an exception. *)
Theorem random_sentence_index_uniform (cfg : text_cfg) (sents : list pystr) :
  full_report cfg = false -> sents <> [] ->
  outcomes (randint 0 (len sents))
  = map (fun i : nat => (Ok (Z.of_nat i), 1 # Z.to_pos (len sents)))
      (seq 0 (length sents))
  /\ (forall i q, (Ok i, q) ∈ outcomes (randint 0 (len sents)) ->
                  0 <= i < len sents)
  /\ (forall i s, sents !! i = Some s ->
                  (Ok (Z.of_nat i), 1 # Z.to_pos (len sents))
                    ∈ outcomes (randint 0 (len sents))
                  /\ getitem sents (Z.of_nat i) = Ok s)
  /\ (forall i, 0 <= i < len sents ->
                Qeq (pr (is_value i) (randint 0 (len sents)))
                    (1 # Z.to_pos (len sents)))
  /\ Qeq (pr (is_value (len sents)) (randint 0 (len sents))) 0%Q
  /\ Forall2 (fun o s => fst o = Ok s /\ (snd o == 1 # Z.to_pos (len sents))%Q)
       (outcomes (select_sent cfg sents)) sents.
Proof.
  intros Hmode Hne.
  assert (forall i,
    Qeq (pr (is_value i) (randint 0 (len sents)))
        (if bool_decide (0 <= i < len sents)
         then 1 # Z.to_pos (len sents) else 0%Q)) as Hpr.
  { intros i. pose proof (len_pos sents Hne) as Hpos.
    assert (randint 0 (len sents)
            = Prog (map (fun j : nat => (Ok (Z.of_nat j), 1 # Z.to_pos (len sents)))
                      (seq 0 (length sents)))) as ->.
    { unfold randint. destruct (len sents <=? 0) eqn:E;
        [apply Z.leb_le in E; lia |].
      rewrite Z.sub_0_r. unfold len. rewrite Nat2Z.id. done. }
    rewrite pr_is_value_seq. unfold len. simpl. reflexivity. }
  assert (outcomes (randint 0 (len sents))
          = map (fun i : nat => (Ok (Z.of_nat i), 1 # Z.to_pos (len sents)))
              (seq 0 (length sents))) as Hr.
  { rewrite randint_outcomes by (by apply len_pos).
    unfold len. by rewrite Nat2Z.id. }
  split; [exact Hr |]. split; [| split; [| split; [| split]]].
  5: by apply select_sent_random_never_raises.
  4: { rewrite Hpr. rewrite bool_decide_eq_false_2 by lia. reflexivity. }
  3: { intros i Hi. rewrite Hpr. rewrite bool_decide_eq_true_2 by lia.
       reflexivity. }
  all: rewrite Hr.
  - intros i q Hin. apply list_elem_of_fmap in Hin as (j & [= -> _] & Hj).
    apply elem_of_seq in Hj. unfold len. lia.
  - intros i s Hs. split; [| by apply getitem_lookup].
    apply list_elem_of_fmap. exists i. split; [done |].
    apply elem_of_seq. apply lookup_lt_Some in Hs. lia.
Qed.

Lemma random_sentence_index_uniform_witness :
  full_report {| full_report := false; word_num := 97 |} = false
  /\ [lit "no pneumothorax"; lit "clear lungs"; lit "no effusion"] <> []
  /\ outcomes (randint 0 3)
     = [(Ok 0, 1 # 3); (Ok 1, 1 # 3); (Ok 2, 1 # 3)].
Proof.
  assert (full_report {| full_report := false; word_num := 97 |} = false)
    as Hmode by reflexivity.
  assert ([lit "no pneumothorax"; lit "clear lungs"; lit "no effusion"] <> [])
    as Hne by discriminate.
  split; [exact Hmode |]. split; [exact Hne |].
  exact (proj1 (random_sentence_index_uniform _ _ Hmode Hne)).
Defined.

(** C6: for a path with a sentence collection, [get_caption] raises if
    and only if the collection is empty, and then it raises the
    no-sentence exception; in a mapping that the build returned every
    collection is non-empty, so [get_caption] raises on none of its paths,
    and every record whose path is not a key has its path in the
    exclusion list. *)
Theorem no_sentence_error_iff_empty tokenizer cfg path2sent p sents
    U max_word_num df m rm :
  path2sent !! p = Some sents ->
  create_path_2_sent_mapping U df max_word_num = Ok (m, rm) ->
  (fails (get_caption tokenizer cfg path2sent p) <-> sents = [])
  /\ (sents = [] -> get_caption tokenizer cfg path2sent p = raise NoSentence)
  /\ (forall q s, m !! q = Some s ->
                  s <> [] /\ ~ fails (get_caption tokenizer cfg m q))
  /\ (forall r, r ∈ df -> m !! img_path r = None -> img_path r ∈ rm).
Proof.
  intros Hp Hc.
  destruct (get_caption_cases tokenizer cfg _ _ _ Hp) as [Hempty Hfull].
  split; [| split; [done | split]].
  - split.
    + intros Hf. destruct sents as [| s l]; [done |].
      exfalso. revert Hf. apply not_fails_all_ok. by apply Hfull.
    + intros Hs. rewrite (Hempty Hs). exists NoSentence, 1%Q. set_solver.
  - intros q s Hq.
    pose proof Hc as [-> ->]%create_returns_loop_state.
    assert (s <> []) as Hs.
    { eapply (run_nonempty U max_word_num df build_init); [| exact Hq].
      intros ? ?. simpl. by rewrite lookup_empty. }
    split; [done |]. apply not_fails_all_ok.
    by apply (get_caption_cases tokenizer cfg _ _ _ Hq).
  - intros r Hr Hnone.
    destruct (caption_index_partition_aux U max_word_num df m rm Hc) as [Hu _].
    assert (img_path r ∈ dom m ∪ (list_to_set rm : gset pystr)) as Hin.
    { rewrite Hu. apply elem_of_list_to_set, list_elem_of_fmap. eauto. }
    apply elem_of_union in Hin as [Hin | Hin].
    + apply elem_of_dom in Hin as [? ?]. congruence.
    + by apply elem_of_list_to_set in Hin.
Qed.

Lemma no_sentence_error_iff_empty_witness :
  path2sent (build_loop latin1 df_two 5) !! lit "p10/s1/a.jpg"
  = Some [lit "no pneumothorax"]
  /\ create_path_2_sent_mapping latin1 df_two 5
     = Ok (path2sent (build_loop latin1 df_two 5),
           to_remove (build_loop latin1 df_two 5))
  /\ (fails (get_caption char_tokenizer cfg_random
               (path2sent (build_loop latin1 df_two 5)) (lit "p10/s1/a.jpg"))
      <-> [lit "no pneumothorax"] = []).
Proof.
  assert (path2sent (build_loop latin1 df_two 5) !! lit "p10/s1/a.jpg"
          = Some [lit "no pneumothorax"]) as Hp by (vm_compute; reflexivity).
  assert (create_path_2_sent_mapping latin1 df_two 5
          = Ok (path2sent (build_loop latin1 df_two 5),
                to_remove (build_loop latin1 df_two 5))) as Hc
    by (vm_compute; reflexivity).
  split; [exact Hp |]. split; [exact Hc |].
  exact (proj1 (no_sentence_error_iff_empty char_tokenizer cfg_random
                  _ _ _ latin1 5 df_two _ _ Hp Hc)).
Defined.

(** ** The caption cache and the file list *)

Section CacheFacts.
Variable U : unicode_db.
Variable max_word_num : Z.

Lemma load_text_data_inv df split fs fs' names m :
  load_text_data U df max_word_num split fs = Ok (fs', (names, m)) ->
  exists rm,
    load_captions U df max_word_num fs = Ok (fs', (m, rm))
    /\ names = filter (λ f, f ∉ rm)
                 (img_path <$> filter (λ r, split_name r = split) df).
Proof.
  unfold load_text_data.
  destruct (load_captions U df max_word_num fs) as [[fs0 [m0 rm0]] | e];
    simpl; [| done].
  intros [= <- <- <-]. by exists rm0.
Qed.

Lemma load_captions_saves df fs fs' idx :
  load_captions U df max_word_num fs = Ok (fs', idx) ->
  fs' = Some idx /\ (forall idx0, fs = Some idx0 -> idx = idx0).
Proof.
  unfold load_captions. destruct fs as [idx0 |].
  - intros [= <- <-]. split; [done |]. by intros ? [= <-].
  - destruct (create_path_2_sent_mapping U df max_word_num) as [idx1 | e];
      simpl; [| done].
    intros [= <- <-]. done.
Qed.
End CacheFacts.


(** C9: a call of [load_text_data] that returns leaves a caption file
    behind, and a second call with the same inputs on that file returns
    the same result and leaves the file as it is; a call that finds a
    caption file returns its content as it is, whatever the records and
    the word limit are. *)
Theorem load_text_data_idempotent U max_word_num df split fs fs' names m :
  load_text_data U df max_word_num split fs = Ok (fs', (names, m)) ->
  load_text_data U df max_word_num split fs' = Ok (fs', (names, m))
  /\ (exists rm,
        fs' = Some (m, rm)
        /\ load_captions U df max_word_num fs = Ok (fs', (m, rm))
        /\ (forall U' df' n', load_captions U' df' n' fs' = Ok (fs', (m, rm))))
  /\ (forall idx, fs = Some idx -> fs' = fs /\ m = idx.1).
Proof.
  intros (rm & Hl & ->)%load_text_data_inv.
  destruct (load_captions_saves _ _ _ _ _ _ Hl) as [-> Hhit].
  split; [done |]. split.
  - exists rm. done.
  - intros idx ->. by rewrite <- (Hhit idx eq_refl).
Qed.

Lemma load_text_data_idempotent_witness :
  load_text_data latin1 df_two 5 (lit "train") None
  = Ok (Some (path2sent (build_loop latin1 df_two 5),
              to_remove (build_loop latin1 df_two 5)),
        ([lit "p10/s1/a.jpg"], path2sent (build_loop latin1 df_two 5)))
  /\ load_text_data latin1 df_two 5 (lit "train")
       (Some (path2sent (build_loop latin1 df_two 5),
              to_remove (build_loop latin1 df_two 5)))
     = Ok (Some (path2sent (build_loop latin1 df_two 5),
                 to_remove (build_loop latin1 df_two 5)),
           ([lit "p10/s1/a.jpg"], path2sent (build_loop latin1 df_two 5))).
Proof.
  assert (load_text_data latin1 df_two 5 (lit "train") None
          = Ok (Some (path2sent (build_loop latin1 df_two 5),
                      to_remove (build_loop latin1 df_two 5)),
                ([lit "p10/s1/a.jpg"], path2sent (build_loop latin1 df_two 5))))
    as Hl by (vm_compute; reflexivity).
  split; [exact Hl |].
  exact (proj1 (load_text_data_idempotent latin1 5 df_two (lit "train")
                  None _ _ _ Hl)).
Defined.

(** ** The sentence loop *)

(** The bullets "1." and "2." separate blocks; a sentence of two tokens
    is kept and a sentence of one token ("ok") is not. *)
Example numbered_report_sentences :
  split_sentences (lit "1. No pneumothorax. 2. Clear lung fields. Ok.")
  = [[]; lit " No pneumothorax"; lit " "; lit " Clear lung fields"; lit " Ok"; []]
  /\ study_sent (sentence_loop latin1 97
                   (split_sentences (lit "1. No pneumothorax. 2. Clear lung fields. Ok."))
                   sent_init)
     = [lit "no pneumothorax"; lit "clear lung fields"].
Proof. split; vm_compute; reflexivity. Qed.

(** C2: with a word limit of 3 and three sentences of two words each, the
    running total is 2, then 4, then 6; it never equals 3, the loop does
    not stop, and the third sentence is appended.  With a limit of 4 the
    loop stops after the second sentence. *)
Theorem word_cap_jumped_over_is_missed :
  sentence_loop latin1 3 (split_sentences report_three) sent_init
  = {| cnt := 6;
       study_sent := [lit "no pneumothorax"; lit "clear lungs"; lit "no effusion"];
       sl_sent_lens := [2; 2; 2] |}
  /\ sentence_loop latin1 4 (split_sentences report_three) sent_init
     = {| cnt := 4;
          study_sent := [lit "no pneumothorax"; lit "clear lungs"];
          sl_sent_lens := [2] |}.
Proof. split; vm_compute; reflexivity. Qed.

Section SentenceFacts.
Variable U : unicode_db.

Lemma filter_tokens_length tokens :
  (length (filter_tokens tokens) <= length tokens)%nat.
Proof.
  induction tokens as [| t ts IH]; simpl; [lia |].
  destruct (0 <? len (ascii_only t)); simpl; lia.
Qed.

Lemma filter_tokens_nonempty tokens :
  Forall (fun t => t <> [] /\ forallb is_ascii t = true) (filter_tokens tokens).
Proof.
  induction tokens as [| t ts IH]; simpl; [constructor |].
  destruct (0 <? len (ascii_only t)) eqn:E; [| done].
  constructor; [| done]. split; [by apply len_pos_cons |].
  apply forallb_forall. intros c Hc. unfold ascii_only in Hc.
  by apply filter_In in Hc as [_ ?].
Qed.

Lemma filter_tokens_keeps_all tokens :
  Forall (fun t => ascii_only t <> []) tokens ->
  filter_tokens tokens = map ascii_only tokens.
Proof.
  induction 1 as [| t ts Ht _ IH]; simpl; [done |].
  destruct (0 <? len (ascii_only t)) eqn:E; [by rewrite IH |].
  destruct (ascii_only t); [done |]. unfold len in E. simpl in E.
  apply Z.ltb_ge in E. lia.
Qed.

Lemma join_nonempty (sep : pystr) (l : list pystr) :
  l <> [] -> Forall (fun t => t <> []) l -> join sep l <> [].
Proof.
  intros Hl Hall. destruct Hall as [| t ts Ht Hts]; [done |].
  simpl. destruct ts; [done |]. by destruct t.
Qed.

Lemma sentence_loop_appended max_word_num captions st s :
  s ∈ study_sent (sentence_loop U max_word_num captions st) ->
  s ∈ study_sent st \/ exists cap, cap ∈ captions /\ appended_from U cap s.
Proof.
  revert st. induction captions as [| cap rest IH]; intros st; simpl; [by left |].
  assert (forall st', (s ∈ study_sent st' -> s ∈ study_sent st \/ appended_from U cap s) ->
            s ∈ study_sent (sentence_loop U max_word_num rest st') ->
            s ∈ study_sent st \/ exists c, c ∈ cap :: rest /\ appended_from U c s) as Hstep.
  { intros st' Hst' [Hin | (c & Hc & Hs)]%IH.
    - destruct (Hst' Hin) as [? | ?]; [by left |].
      right. exists cap. split; [left | done].
    - right. exists c. split; [by right | done]. }
  destruct (len cap =? 0) eqn:Hcap; [apply Hstep; tauto |].
  destruct (len (tokenize U (lower U (replace_fffd_pairs cap))) <=? 1) eqn:Htok;
    [apply Hstep; tauto |].
  assert (forall l, s ∈ l ++ [join (lit " ")
                        (filter_tokens (tokenize U (lower U (replace_fffd_pairs cap))))] ->
                    l = study_sent st ->
                    s ∈ study_sent st \/ appended_from U cap s) as Happ.
  { intros l [Hin | ->%list_elem_of_singleton]%elem_of_app ->; [by left |].
    right. split; [| split; [| done]].
    - intros ->. done.
    - apply Z.leb_gt in Htok. lia. }
  destruct (_ =? max_word_num).
  - simpl. intros Hin. destruct (Happ _ Hin eq_refl) as [? | ?]; [by left |].
    right. exists cap. split; [left | done].
  - apply Hstep. simpl. intros Hin. by apply (Happ _ Hin).
Qed.
End SentenceFacts.

(** C4, as stated, fails on a sentence of two words without an ASCII
    character: it has two tokens before the ASCII filter and none after,
    it is not discarded, and the empty string is appended and stored. *)
Lemma sentence_kept_with_no_token_left :
  tokenize latin1 (lower latin1 [233; 32; 252]%N) = [[233]; [252]]%N
  /\ sentence_loop latin1 5 (split_sentences report_accents) sent_init
     = {| cnt := 0; study_sent := [[]]; sl_sent_lens := [0] |}
  /\ path2sent (build_loop latin1
                  [{| img_path := lit "a.jpg"; split_name := lit "train";
                      impression := CStr report_accents |}] 5)
     !! lit "a.jpg" = Some [[]].
Proof. repeat split; vm_compute; reflexivity. Qed.

(** C4 (amended): a sentence is appended only for a non-empty candidate
    whose token list before the ASCII filter has at least 2 tokens; the
    appended sentence is the join by single spaces of the tokens that are
    left non-empty by the ASCII filter, which are ASCII and no more than
    the tokens before the filter; when every token before the filter
    keeps an ASCII character, at least 2 tokens are left and the
    sentence is a non-empty string. *)
Theorem appended_sentence_has_two_raw_tokens U max_word_num captions sl s :
  s ∈ study_sent (sentence_loop U max_word_num captions
                    {| cnt := 0; study_sent := []; sl_sent_lens := sl |}) ->
  exists cap,
    cap ∈ captions /\ cap <> []
    /\ let tokens := tokenize U (lower U (replace_fffd_pairs cap)) in
       2 <= len tokens
       /\ s = join (lit " ") (filter_tokens tokens)
       /\ Forall (fun t => t <> [] /\ forallb is_ascii t = true)
            (filter_tokens tokens)
       /\ len (filter_tokens tokens) <= len tokens
       /\ (Forall (fun t => ascii_only t <> []) tokens ->
           2 <= len (filter_tokens tokens) /\ s <> []).
Proof.
  intros [Hin | (cap & Hcap & Hne & Htok & Hs)]%sentence_loop_appended.
  { simpl in Hin. by apply elem_of_nil in Hin. }
  exists cap. split; [done |]. split; [done |]. simpl.
  split; [done |]. split; [done |].
  split; [apply filter_tokens_nonempty |].
  split; [unfold len; pose proof (filter_tokens_length
            (tokenize U (lower U (replace_fffd_pairs cap)))); lia |].
  intros Hall. rewrite Hs, (filter_tokens_keeps_all _ Hall).
  assert (2 <= len (map ascii_only (tokenize U (lower U (replace_fffd_pairs cap)))))
    as Hlen by (unfold len in *; by rewrite length_map).
  split; [done |]. apply join_nonempty.
  - intros E. rewrite E in Hlen. unfold len in Hlen. simpl in Hlen. lia.
  - apply Forall_map. by apply (Forall_impl _ _ _ Hall).
Qed.

Lemma appended_sentence_has_two_raw_tokens_witness :
  lit "no pneumothorax"
    ∈ study_sent (sentence_loop latin1 5 (split_sentences report_three) sent_init)
  /\ exists cap,
      cap ∈ split_sentences report_three /\ cap <> []
      /\ 2 <= len (tokenize latin1 (lower latin1 (replace_fffd_pairs cap))).
Proof.
  assert (lit "no pneumothorax"
            ∈ study_sent (sentence_loop latin1 5 (split_sentences report_three)
                            sent_init)) as Hin
    by (vm_compute; left).
  split; [exact Hin |].
  destruct (appended_sentence_has_two_raw_tokens latin1 5 _ [] _ Hin)
    as (cap & Hc & Hne & Htok & _).
  exists cap. done.
Defined.

(** ** Batch assembly *)

Lemma collate_path_in_input_order {pixel} (batch : list (sample pixel)) d :
  multimodal_collate_fn batch = Ok d -> path d = map s_p batch.
Proof.
  unfold multimodal_collate_fn, mbind, res_mbind, fmap, res_fmap.
  destruct (stack (map s_img batch)); cbn [res_bind]; [| done].
  do 3 (destruct (stack (map _ batch)); cbn [res_bind]; [| done]).
  destruct (sort_descending _) as [vals idx].
  do 4 (destruct (index_rows _ idx); cbn [res_bind]; [| done]).
  by intros [= <-].
Qed.

(** A batch of one sample: [squeeze] also removes the batch dimension, and
    the index then selects the first token id instead of the row. *)
Example collate_single_sample :
  exists d,
    multimodal_collate_fn [mk_sample 10 7 5 "a.jpg"] = Ok d
    /\ caption_ids d = Rows [Scalar 101]
    /\ imgs d = Rows [Rows [Rows [Scalar 10; Scalar 10]]].
Proof. eexists. split; [vm_compute; reflexivity |]. repeat split. Qed.

(** C1: on three samples with caption lengths 5, 12 and 8 the lengths,
    the images and the token arrays come back in the order 1, 2, 0 of the
    input, and the paths come back in the order 0, 1, 2 of the input: the
    first returned path is the path of the shortest caption, next to the
    image and the length of the longest. *)
Theorem collate_leaves_paths_in_input_order :
  exists d,
    multimodal_collate_fn batch3 = Ok d
    /\ cap_lens d = [12; 8; 5]
    /\ imgs d = Rows [Rows [Rows [Scalar 20; Scalar 20]];
                      Rows [Rows [Scalar 30; Scalar 30]];
                      Rows [Rows [Scalar 10; Scalar 10]]]
    /\ caption_ids d = Rows [Rows [Scalar 101; Scalar 8; Scalar 102; Scalar 0];
                             Rows [Scalar 101; Scalar 9; Scalar 102; Scalar 0];
                             Rows [Scalar 101; Scalar 7; Scalar 102; Scalar 0]]
    /\ path d = [lit "a.jpg"; lit "b.jpg"; lit "c.jpg"].
Proof. eexists. split; [vm_compute; reflexivity |]. repeat split. Qed.

(** ** The image normalizer *)

Section ResizeFacts.
Variable inter_area : ndarray -> nat -> nat -> list (list Z).
Hypothesis inter_area_shape : forall a w h,
  length (inter_area a w h) = h
  /\ Forall (fun row => length row = w) (inter_area a w h).

Lemma cv2_resize_ok img w h :
  (1 <= nrows img)%nat -> (1 <= ncols img)%nat ->
  1 <= w < 2 ^ 31 -> 1 <= h < 2 ^ 31 ->
  cv2_resize inter_area img (w, h)
  = Ok {| nrows := Z.to_nat h; ncols := Z.to_nat w;
          data := inter_area img (Z.to_nat w) (Z.to_nat h) |}.
Proof.
  intros Hr Hc Hw Hh. unfold cv2_resize.
  destruct (nrows img =? 0)%nat eqn:E1; [apply Nat.eqb_eq in E1; lia |].
  destruct (ncols img =? 0)%nat eqn:E2; [apply Nat.eqb_eq in E2; lia |].
  simpl.
  destruct (1 <=? w) eqn:E3; [| apply Z.leb_gt in E3; lia].
  destruct (w <? 2 ^ 31) eqn:E4; [| apply Z.ltb_ge in E4; lia].
  destruct (1 <=? h) eqn:E5; [| apply Z.leb_gt in E5; lia].
  destruct (h <? 2 ^ 31) eqn:E6; [| apply Z.ltb_ge in E6; lia].
  done.
Qed.

Lemma np_pad_ok a top bottom left right :
  0 <= top -> 0 <= bottom -> 0 <= left -> 0 <= right ->
  np_pad a top bottom left right
  = Ok {| nrows := Z.to_nat top + nrows a + Z.to_nat bottom;
          ncols := Z.to_nat left + ncols a + Z.to_nat right;
          data := repeat (repeat 0 (Z.to_nat left + ncols a + Z.to_nat right)%nat)
                    (Z.to_nat top)
                  ++ map (fun r => repeat 0 (Z.to_nat left) ++ r
                                   ++ repeat 0 (Z.to_nat right)) (data a)
                  ++ repeat (repeat 0 (Z.to_nat left + ncols a + Z.to_nat right)%nat)
                       (Z.to_nat bottom) |}.
Proof.
  intros Ht Hb Hl Hr. unfold np_pad.
  destruct (top <? 0) eqn:E1; [apply Z.ltb_lt in E1; lia |].
  destruct (bottom <? 0) eqn:E2; [apply Z.ltb_lt in E2; lia |].
  destruct (left <? 0) eqn:E3; [apply Z.ltb_lt in E3; lia |].
  destruct (right <? 0) eqn:E4; [apply Z.ltb_lt in E4; lia |].
  done.
Qed.

Lemma np_pad_well_shaped a top bottom left right out :
  well_shaped a -> np_pad a top bottom left right = Ok out -> well_shaped out.
Proof using Type.
  intros [Hrows Hcols]. unfold np_pad.
  destruct (_ || _); [done |]. intros [= <-]. split; simpl.
  - rewrite !length_app, !repeat_length, length_map. lia.
  - repeat (apply Forall_app; split).
    + apply Forall_forall. intros x ->%list_elem_of_In%repeat_spec. by rewrite repeat_length.
    + apply Forall_map. apply (Forall_impl _ _ _ Hcols). intros r Hr. simpl.
      rewrite !length_app, !repeat_length. lia.
    + apply Forall_forall. intros x ->%list_elem_of_In%repeat_spec. by rewrite repeat_length.
Qed.

Lemma pad_split (pad : Z) :
  0 <= pad ->
  0 <= pad / 2 /\ 0 <= (pad + 1) / 2
  /\ pad / 2 + (pad + 1) / 2 = pad
  /\ pad / 2 <= (pad + 1) / 2 <= pad / 2 + 1.
Proof. intros H. repeat split; Z.to_euclidean_division_equations; lia. Qed.
End ResizeFacts.

(** A 100 x 200 image at target size 224: the height becomes
    floor(100 * 1.12) = 112 and gets 56 rows of zeros above and below. *)
Example resize_100_by_200 :
  scaled_dim 224 200 100 = Ok 112
  /\ (out ← _resize_img nearest (blank 100 200 7) 224;
      Ok (nrows out, ncols out, take 57 (hd 0 <$> data out),
          drop 167 (hd 0 <$> data out)))
     = Ok (224%nat, 224%nat, repeat 0 56 ++ [7], [7] ++ repeat 0 56).
Proof. split; vm_compute; reflexivity. Qed.

(** A 55 x 55 image at target size 224: in doubles 55.0 * (224 / 55.0) is
    just below 224, the width becomes 223 and one column of zeros is
    added on the right. *)
Example resize_55_by_55 :
  scaled_dim 224 55 55 = Ok 223
  /\ (out ← _resize_img nearest (blank 55 55 7) 224;
      Ok (nrows out, ncols out, drop 222 <$> head (data out)))
     = Ok (224%nat, 224%nat, Some [7; 0]).
Proof. split; vm_compute; reflexivity. Qed.

(** C5: two images on which no image comes back.  A 1000 x 1 image at
    target size 224 has its width scaled to int(1.0 * 0.224) = 0, and the
    resize is refused.  A 10976 x 49 image at target size 224 has the
    exact scaled width 49 * 224 / 10976 = 1, but in doubles
    49.0 * (224 / 10976.0) is just below 1, the width is again 0, and the
    resize is refused. *)
Theorem resize_img_raises_on_thin_image :
  scaled_dim 224 1000 1 = Ok 0
  /\ _resize_img nearest (blank 1000 1 7) 224 = Raise Cv2Error
  /\ scaled_dim 224 10976 49 = Ok 0
  /\ _resize_img nearest (blank (Z.to_nat 10976) 49 7) 224 = Raise Cv2Error.
Proof. repeat split; vm_compute; reflexivity. Qed.

(** X10: for an image of height and width at least 1 and a target size
    below 2^31, let r be the shorter side scaled in doubles,
    int(float(shorter) * (target / float(longer))); whenever
    1 <= r <= target, the result is target x target, the longer side is
    resized to target and the shorter to r, the shorter axis is padded
    with zeros, floor(pad/2) before and ceil(pad/2) after for
    pad = target - r, and the longer axis is not padded. *)
Theorem resize_img_square inter_area img scale r :
  (forall a w h,
      length (inter_area a w h) = h
      /\ Forall (fun row => length row = w) (inter_area a w h)) ->
  (1 <= nrows img)%nat -> (1 <= ncols img)%nat ->
  scaled_dim scale (Z.max (Z.of_nat (nrows img)) (Z.of_nat (ncols img)))
    (Z.min (Z.of_nat (nrows img)) (Z.of_nat (ncols img))) = Ok r ->
  1 <= r <= scale -> scale < 2 ^ 31 ->
  let lead := (scale - r) / 2 in
  let trail := (scale - r + 1) / 2 in
  exists resized out,
    _resize_img inter_area img scale = Ok out
    /\ nrows out = Z.to_nat scale /\ ncols out = Z.to_nat scale
    /\ well_shaped out
    /\ lead + trail = scale - r /\ 0 <= lead <= trail /\ trail <= lead + 1
    /\ well_shaped resized
    /\ ((ncols img <= nrows img)%nat ->
        nrows resized = Z.to_nat scale /\ ncols resized = Z.to_nat r
        /\ data out = map (fun row => repeat 0 (Z.to_nat lead) ++ row
                                      ++ repeat 0 (Z.to_nat trail))
                        (data resized))
    /\ ((nrows img < ncols img)%nat ->
        nrows resized = Z.to_nat r /\ ncols resized = Z.to_nat scale
        /\ data out = repeat (repeat 0 (Z.to_nat scale)) (Z.to_nat lead)
                      ++ data resized
                      ++ repeat (repeat 0 (Z.to_nat scale)) (Z.to_nat trail)).
Proof.
  intros Hshape Hh Hw Hr Hrange Hscale lead trail.
  destruct (pad_split (scale - r)) as (Hl & Ht & Hsum & Hle & Hge); [lia |].
  fold lead in Hl, Hsum, Hle, Hge. fold trail in Ht, Hsum, Hle, Hge.
  unfold _resize_img. cbn [fst snd].
  destruct (le_lt_dec (ncols img) (nrows img)) as [Hcase | Hcase].
  - (* the image is higher: the width is padded *)
    rewrite Z.max_l, Z.min_r in Hr by lia.
    rewrite Z.max_l, Z.eqb_refl by lia. cbn [Z.eqb].
    rewrite Hr. unfold mbind, res_mbind. cbn [res_bind fst snd].
    rewrite cv2_resize_ok by lia. cbn [res_bind].
    set (resized := {| nrows := Z.to_nat scale; ncols := Z.to_nat r;
                       data := inter_area img (Z.to_nat r) (Z.to_nat scale) |}).
    assert (well_shaped resized) as Hws by (split; simpl; apply Hshape).
    cbn [ncols resized]. rewrite Z2Nat.id by lia. fold lead trail.
    pose proof (np_pad_ok resized 0 0 lead trail) as Hpad.
    rewrite Hpad by lia.
    eexists resized, _. split; [reflexivity |]. cbn [nrows ncols data resized].
    split; [lia |]. split; [lia |].
    split; [eapply np_pad_well_shaped; [exact Hws | apply Hpad; lia] |].
    split; [done |]. split; [lia |]. split; [done |]. split; [done |].
    split; [| lia].
    intros _. split; [done |]. split; [done |].
    simpl. by rewrite app_nil_r.
  - (* the image is wider: the height is padded *)
    rewrite Z.max_r, Z.min_l in Hr by lia.
    rewrite Z.max_r by lia.
    destruct (Z.of_nat (nrows img) =? Z.of_nat (ncols img)) eqn:E;
      [apply Z.eqb_eq in E; lia |]. cbn [Z.eqb].
    rewrite Hr. unfold mbind, res_mbind. cbn [res_bind fst snd].
    rewrite cv2_resize_ok by lia. cbn [res_bind].
    set (resized := {| nrows := Z.to_nat r; ncols := Z.to_nat scale;
                       data := inter_area img (Z.to_nat scale) (Z.to_nat r) |}).
    assert (well_shaped resized) as Hws by (split; simpl; apply Hshape).
    cbn [nrows resized]. rewrite Z2Nat.id by lia. fold lead trail.
    pose proof (np_pad_ok resized lead trail 0 0) as Hpad.
    rewrite Hpad by lia.
    eexists resized, _. split; [reflexivity |]. cbn [nrows ncols data resized].
    split; [lia |]. split; [lia |].
    split; [eapply np_pad_well_shaped; [exact Hws | apply Hpad; lia] |].
    split; [done |]. split; [lia |]. split; [done |]. split; [done |].
    split; [lia |].
    intros _. split; [done |]. split; [done |].
    simpl. rewrite Nat.add_0_r. f_equal. f_equal.
    rewrite <- (map_id (inter_area img (Z.to_nat scale) (Z.to_nat r))) at 2.
    apply map_ext. intros row. by rewrite app_nil_r.
Qed.

Lemma nearest_shape a w h :
  length (nearest a w h) = h
  /\ Forall (fun row => length row = w) (nearest a w h).
Proof.
  unfold nearest. split; [by rewrite length_map, length_seq |].
  apply Forall_map, Forall_forall. intros i _. simpl.
  by rewrite length_map, length_seq.
Qed.

Lemma resize_img_square_witness :
  (1 <= nrows (blank 100 200 7))%nat /\ (1 <= ncols (blank 100 200 7))%nat
  /\ scaled_dim 224 200 100 = Ok 112
  /\ 1 <= 112 <= 224 /\ 224 < 2 ^ 31
  /\ exists out,
      _resize_img nearest (blank 100 200 7) 224 = Ok out
      /\ nrows out = 224%nat /\ ncols out = 224%nat.
Proof.
  assert (scaled_dim 224
            (Z.max (Z.of_nat (nrows (blank 100 200 7)))
                   (Z.of_nat (ncols (blank 100 200 7))))
            (Z.min (Z.of_nat (nrows (blank 100 200 7)))
                   (Z.of_nat (ncols (blank 100 200 7)))) = Ok 112) as Hr
    by (vm_compute; reflexivity).
  assert (1 <= nrows (blank 100 200 7))%nat as Hh by (simpl; lia).
  assert (1 <= ncols (blank 100 200 7))%nat as Hw by (simpl; lia).
  assert (1 <= 112 <= 224) as Hrange by lia.
  assert (224 < 2 ^ 31) as Hscale by lia.
  split; [exact Hh |]. split; [exact Hw |]. split; [exact Hr |].
  split; [exact Hrange |]. split; [exact Hscale |].
  destruct (resize_img_square nearest (blank 100 200 7) 224 112
              nearest_shape Hh Hw Hr Hrange Hscale)
    as (resized & out & Hout & Hrows & Hcols & _).
  exists out. split; [exact Hout |]. split; [exact Hrows | exact Hcols].
Defined.


(** * Further properties *)

(** ** The sentence loop, one report at a time *)

Section LoopFacts.
Variable U : unicode_db.

Implicit Types (st : sent_state) (captions : list pystr).

(** The sentences and the word count do not depend on the statistics
    list. *)
Lemma sentence_loop_ignores_stats n captions c ss sl sl' :
  study_sent (sentence_loop U n captions
                {| cnt := c; study_sent := ss; sl_sent_lens := sl |})
  = study_sent (sentence_loop U n captions
                  {| cnt := c; study_sent := ss; sl_sent_lens := sl' |})
  /\ cnt (sentence_loop U n captions
            {| cnt := c; study_sent := ss; sl_sent_lens := sl |})
     = cnt (sentence_loop U n captions
              {| cnt := c; study_sent := ss; sl_sent_lens := sl' |}).
Proof.
  revert c ss sl sl'. induction captions as [| cap rest IH]; intros; simpl;
    [done |].
  destruct (len cap =? 0); [apply IH |].
  destruct (len _ <=? 1); [apply IH |].
  destruct (_ =? n); [done | apply IH].
Qed.

(** The loop only appends. *)
Lemma sentence_loop_extends n captions st :
  study_sent st `prefix_of` study_sent (sentence_loop U n captions st).
Proof.
  revert st. induction captions as [| cap rest IH]; intros st; simpl; [done |].
  destruct (len cap =? 0); [apply IH |].
  destruct (len _ <=? 1); [apply IH |].
  destruct (_ =? n); simpl.
  - by apply prefix_app_r.
  - etrans; [| apply IH]. simpl. by apply prefix_app_r.
Qed.

Lemma filter_tokens_len_nonneg (tokens : list pystr) : 0 <= len (filter_tokens tokens).
Proof. unfold len. lia. Qed.

Lemma sentence_loop_cnt_nonneg n captions st :
  0 <= cnt st -> 0 <= cnt (sentence_loop U n captions st).
Proof.
  revert st. induction captions as [| cap rest IH]; intros st Hst; simpl;
    [done |].
  destruct (len cap =? 0); [by apply IH |].
  destruct (len _ <=? 1); [by apply IH |].
  pose proof (filter_tokens_len_nonneg
                (tokenize U (lower U (replace_fffd_pairs cap)))).
  destruct (_ =? n); simpl; [lia | apply IH; simpl; lia].
Qed.

(** Under a limit that no total can equal, the loop keeps what it keeps
    under any limit, and possibly more; it keeps the same unless the total
    has hit the limit. *)
Lemma sentence_loop_limit_truncates n n' captions st :
  n' < 0 -> 0 <= cnt st ->
  study_sent (sentence_loop U n captions st)
    `prefix_of` study_sent (sentence_loop U n' captions st)
  /\ (study_sent (sentence_loop U n captions st)
      = study_sent (sentence_loop U n' captions st)
      \/ cnt (sentence_loop U n captions st) = n).
Proof.
  intros Hn'. revert st. induction captions as [| cap rest IH]; intros st Hst;
    simpl; [by split; [| left] |].
  destruct (len cap =? 0); [by apply IH |].
  destruct (len _ <=? 1); [by apply IH |].
  pose proof (filter_tokens_len_nonneg
                (tokenize U (lower U (replace_fffd_pairs cap)))) as Hlen.
  destruct (_ =? n') eqn:E'; [apply Z.eqb_eq in E'; lia |].
  destruct (_ =? n) eqn:E.
  - apply Z.eqb_eq in E. simpl. split; [| by right].
    apply (sentence_loop_extends n' rest
             {| cnt := cnt st + len (filter_tokens
                                       (tokenize U (lower U (replace_fffd_pairs cap))));
                study_sent := study_sent st
                              ++ [join (lit " ")
                                    (filter_tokens
                                       (tokenize U (lower U (replace_fffd_pairs cap))))];
                sl_sent_lens := _ |}).
  - apply IH. simpl. lia.
Qed.
End LoopFacts.

(** ** What is stored for a path *)

Section StoredFacts.
Variable U : unicode_db.
Variable max_word_num : Z.

Implicit Types (st : build_state) (r : row) (df : list row).

#[local] Abbreviation run' df st := (fold_left (row_step U max_word_num) df st).

Lemma row_step_sentences st r :
  let sents := report_sentences U max_word_num (report_text r) in
  path2sent (row_step U max_word_num st r)
  = (if 0 <? len sents then <[img_path r := sents]> (path2sent st)
     else path2sent st)
  /\ (forall p, p ∈ to_remove (row_step U max_word_num st r) <->
                p ∈ to_remove st \/ (p = img_path r /\ sents = [])).
Proof.
  unfold row_step, report_sentences. simpl.
  destruct (sentence_loop_ignores_stats U max_word_num
              (split_sentences (report_text r)) 0 [] (sent_lens st) [])
    as [-> _].
  set (sents := study_sent (sentence_loop U max_word_num _ _)).
  destruct (0 <? len sents) eqn:Hs; simpl.
  - split; [done |]. intros p.
    apply len_pos_cons in Hs.
    destruct (len (report_text r) =? 0) eqn:Ht.
    + apply len_zero_nil in Ht. exfalso. apply Hs. subst sents.
      by rewrite Ht.
    + naive_solver.
  - split; [done |]. intros p.
    assert (sents = []) as Hnil.
    { destruct sents; [done |]. unfold len in Hs. simpl in Hs.
      apply Z.ltb_ge in Hs. lia. }
    destruct (len (report_text r) =? 0); set_solver.
Qed.

Lemma run_lookup_other df st p :
  p ∉ (img_path <$> df) ->
  path2sent (run' df st) !! p = path2sent st !! p
  /\ (p ∈ to_remove (run' df st) <-> p ∈ to_remove st).
Proof.
  revert st. induction df as [| r df IH]; intros st Hp; simpl; [done |].
  rewrite fmap_cons in Hp. apply not_elem_of_cons in Hp as [Hne Hp].
  destruct (IH (row_step U max_word_num st r) Hp) as [-> ->].
  destruct (row_step_sentences st r) as [-> Hrm]. rewrite Hrm.
  split; [| naive_solver].
  destruct (0 <? len _); [| done]. by rewrite lookup_insert_ne.
Qed.

Lemma run_lookup_origin df st p sents :
  path2sent (run' df st) !! p = Some sents ->
  path2sent st !! p = Some sents
  \/ exists r, r ∈ df /\ img_path r = p
              /\ sents = report_sentences U max_word_num (report_text r).
Proof.
  revert st. induction df as [| r df IH]; intros st; simpl; [by left |].
  intros [Hst | (r' & Hr' & <- & ->)]%IH.
  - destruct (row_step_sentences st r) as [Hm _]. rewrite Hm in Hst.
    destruct (0 <? len _); [| by left].
    destruct (decide (img_path r = p)) as [<- | Hne].
    + rewrite lookup_insert_eq in Hst. injection Hst as <-.
      right. exists r. split; [left | done].
    + rewrite lookup_insert_ne in Hst by done. by left.
  - right. exists r'. split; [by right | done].
Qed.

Lemma run_lookup_row df st r :
  NoDup (img_path <$> df) -> r ∈ df ->
  let sents := report_sentences U max_word_num (report_text r) in
  path2sent (run' df st) !! img_path r
  = (if 0 <? len sents then Some sents else path2sent st !! img_path r)
  /\ (img_path r ∈ to_remove (run' df st) <->
      img_path r ∈ to_remove st \/ sents = []).
Proof.
  revert st. induction df as [| a df IH]; intros st Hnd Hr; simpl.
  { by apply elem_of_nil in Hr. }
  rewrite fmap_cons in Hnd. apply NoDup_cons in Hnd as [Ha Hnd].
  apply elem_of_cons in Hr as [-> | Hr].
  - destruct (run_lookup_other df (row_step U max_word_num st a) _ Ha)
      as [-> ->].
    destruct (row_step_sentences st a) as [-> Hrm]. rewrite Hrm.
    split; [| naive_solver].
    destruct (0 <? len _); [by rewrite lookup_insert_eq | done].
  - destruct (IH (row_step U max_word_num st a) Hnd Hr) as [-> ->].
    assert (img_path r <> img_path a) as Hne.
    { intros E. apply Ha. rewrite <- E. apply list_elem_of_fmap. eauto. }
    destruct (row_step_sentences st a) as [-> Hrm]. rewrite Hrm.
    split; [| naive_solver].
    destruct (0 <? len (report_sentences U max_word_num (report_text r)));
      [done |].
    destruct (0 <? len _); [| done]. by rewrite lookup_insert_ne.
Qed.

Lemma run_sent_lens_empty_reports df st :
  Forall (fun r => report_text r = []) df ->
  sent_lens (run' df st) = sent_lens st.
Proof.
  revert st. induction df as [| r df IH]; intros st Hall; simpl; [done |].
  apply Forall_cons in Hall as [Hr Hall]. rewrite IH by done.
  unfold row_step. rewrite Hr. simpl. done.
Qed.
End StoredFacts.

(** ** The characters of a stored sentence *)

Section TokenFacts.
Variable U : unicode_db.

Lemma findall_word_tokens (P : N -> Prop) cur s :
  Forall (fun c => is_word U c = true /\ P c) cur -> Forall P s ->
  Forall (Forall (fun c => is_word U c = true /\ P c)) (findall_word U cur s).
Proof.
  revert cur. induction s as [| c s IH]; intros cur Hcur Hs; simpl.
  - destruct cur; [constructor |]. constructor; [| constructor].
    by apply Forall_rev.
  - apply Forall_cons in Hs as [Hc Hs].
    destruct (is_word U c) eqn:Hw.
    + apply IH; [| done]. by constructor.
    + destruct cur as [| d cur'].
      * by apply IH.
      * constructor; [by apply Forall_rev | by apply IH].
Qed.

Lemma lower_no_capital s :
  (forall c d, d ∈ uni_lower U c -> is_upper d = false) ->
  Forall (fun c => is_upper c = false) (lower U s).
Proof.
  intros HU. unfold lower. apply Forall_forall. intros d Hd.
  apply list_elem_of_In, in_flat_map in Hd as (c & _ & Hd).
  unfold lower_char in Hd. destruct (is_ascii c).
  - destruct (is_upper c) eqn:Hc; simpl in Hd; destruct Hd as [<- | []];
      [| done].
    unfold is_upper, in_range in *.
    apply andb_prop in Hc as [H1%N.leb_le H2%N.leb_le].
    apply andb_false_iff. right. apply N.leb_gt. lia.
  - apply (HU c). by apply list_elem_of_In.
Qed.

Lemma filter_tokens_chars (P : N -> Prop) tokens :
  Forall (Forall (fun c => is_word U c = true /\ P c)) tokens ->
  Forall (fun t => t <> []
                   /\ Forall (fun c => ascii_word_char c = true /\ P c) t)
    (filter_tokens tokens).
Proof.
  induction 1 as [| t ts Ht _ IH]; simpl; [constructor |].
  destruct (0 <? len (ascii_only t)) eqn:E; [| done].
  constructor; [| done]. split; [by apply len_pos_cons |].
  unfold ascii_only. apply Forall_forall. intros c Hc.
  apply list_elem_of_In, filter_In in Hc as [Hc Hascii].
  rewrite Forall_forall in Ht.
  destruct (Ht c) as [Hw HP]; [by apply list_elem_of_In |].
  split; [| done]. unfold is_word in Hw. by rewrite Hascii in Hw.
Qed.

Lemma appended_sentence_tokens cap s :
  appended_from U cap s ->
  exists tokens,
    s = join (lit " ") tokens
    /\ Forall (fun t => t <> [] /\ forallb ascii_word_char t = true) tokens
    /\ ((forall c d, d ∈ uni_lower U c -> is_upper d = false) ->
        Forall (Forall (fun c => is_upper c = false)) tokens).
Proof.
  intros (_ & _ & ->). eexists. split; [reflexivity |]. split.
  - pose proof (filter_tokens_chars (fun _ => True) (tokenize U (lower U (replace_fffd_pairs cap)))) as H.
    eapply Forall_impl; [apply H |].
    + unfold tokenize. apply findall_word_tokens; [constructor |].
      apply Forall_forall. done.
    + intros t [Hne Ht]. split; [done |]. apply forallb_forall.
      intros c Hc. rewrite Forall_forall in Ht.
      by apply Ht, list_elem_of_In.
  - intros HU.
    pose proof (filter_tokens_chars (fun c => is_upper c = false)
                  (tokenize U (lower U (replace_fffd_pairs cap)))) as H.
    assert (Forall (fun t => t <> [] /\ Forall (fun c => ascii_word_char c = true /\ is_upper c = false) t)
              (filter_tokens (tokenize U (lower U (replace_fffd_pairs cap))))) as Hall.
    { apply H. unfold tokenize. apply findall_word_tokens; [constructor |].
      by apply lower_no_capital. }
    eapply Forall_impl; [apply Hall |]. intros t [_ Ht].
    eapply Forall_impl; [apply Ht |]. by intros c [_ ?].
Qed.
End TokenFacts.


(** X1: every sentence stored in the returned mapping is a join by single
    spaces of tokens, each non-empty and made of ASCII letters, digits
    and underscores only; when the lowercasing table never yields an
    ASCII capital, no stored token has a capital letter. *)
Theorem stored_sentence_is_ascii_words U max_word_num df m rm p sents s :
  create_path_2_sent_mapping U df max_word_num = Ok (m, rm) ->
  m !! p = Some sents -> s ∈ sents ->
  exists tokens,
    s = join (lit " ") tokens
    /\ Forall (fun t => t <> [] /\ forallb ascii_word_char t = true) tokens
    /\ ((forall c d, d ∈ uni_lower U c -> is_upper d = false) ->
        Forall (Forall (fun c => is_upper c = false)) tokens).
Proof.
  intros [-> _]%create_returns_loop_state Hp Hs.
  apply run_lookup_origin in Hp as [Hp | (r & _ & _ & ->)].
  { simpl in Hp. by rewrite lookup_empty in Hp. }
  apply sentence_loop_appended in Hs as [Hs | (cap & _ & Hcap)].
  { simpl in Hs. by apply elem_of_nil in Hs. }
  by apply (appended_sentence_tokens U cap).
Qed.

Lemma stored_sentence_is_ascii_words_witness :
  create_path_2_sent_mapping latin1 df_two 5
  = Ok (path2sent (build_loop latin1 df_two 5),
        to_remove (build_loop latin1 df_two 5))
  /\ path2sent (build_loop latin1 df_two 5) !! lit "p10/s1/a.jpg"
     = Some [lit "no pneumothorax"]
  /\ lit "no pneumothorax" ∈ [lit "no pneumothorax"]
  /\ exists tokens,
      lit "no pneumothorax" = join (lit " ") tokens
      /\ Forall (fun t => t <> [] /\ forallb ascii_word_char t = true) tokens.
Proof.
  assert (create_path_2_sent_mapping latin1 df_two 5
          = Ok (path2sent (build_loop latin1 df_two 5),
                to_remove (build_loop latin1 df_two 5))) as Hc
    by (vm_compute; reflexivity).
  assert (path2sent (build_loop latin1 df_two 5) !! lit "p10/s1/a.jpg"
          = Some [lit "no pneumothorax"]) as Hp by (vm_compute; reflexivity).
  assert (lit "no pneumothorax" ∈ [lit "no pneumothorax"]) as Hs by left.
  split; [exact Hc |]. split; [exact Hp |]. split; [exact Hs |].
  destruct (stored_sentence_is_ascii_words latin1 5 df_two _ _ _ _ _ Hc Hp Hs)
    as (tokens & H1 & H2 & _).
  exists tokens. split; [exact H1 | exact H2].
Defined.

(** X2: when the image paths of the records are pairwise distinct, what
    the returned index holds for a record depends on the report of that
    record alone: if the report yields sentences, the path is a key with
    exactly those sentences and is not excluded; if it yields none, the
    path is no key and is excluded.  A report that is empty or not a
    string yields none. *)
Theorem index_entry_is_own_report U max_word_num df m rm r :
  create_path_2_sent_mapping U df max_word_num = Ok (m, rm) ->
  NoDup (img_path <$> df) -> r ∈ df ->
  let sents := report_sentences U max_word_num (report_text r) in
  (sents <> [] -> m !! img_path r = Some sents /\ img_path r ∉ rm)
  /\ (sents = [] -> m !! img_path r = None /\ img_path r ∈ rm)
  /\ (report_text r = [] -> sents = []).
Proof.
  intros [-> ->]%create_returns_loop_state Hnd Hr sents.
  destruct (run_lookup_row U max_word_num df build_init r Hnd Hr)
    as [Hm Hrm].
  fold sents in Hm, Hrm. unfold build_loop. rewrite Hm, Hrm. simpl.
  split; [| split].
  - intros Hne. destruct (0 <? len sents) eqn:E.
    + split; [done |]. intros [Hin | ?]; [| done].
      by apply elem_of_nil in Hin.
    + destruct sents; [done |]. unfold len in E. simpl in E.
      apply Z.ltb_ge in E. lia.
  - intros ->. simpl. split; [apply lookup_empty | by right].
  - intros Ht. subst sents. by rewrite Ht.
Qed.

Lemma index_entry_is_own_report_witness :
  create_path_2_sent_mapping latin1 df_two 5
  = Ok (path2sent (build_loop latin1 df_two 5),
        to_remove (build_loop latin1 df_two 5))
  /\ NoDup (img_path <$> df_two)
  /\ mk_row "p10/s1/a.jpg" "train" "No pneumothorax." ∈ df_two
  /\ (report_sentences latin1 5 (lit "No pneumothorax.") <> [] ->
      path2sent (build_loop latin1 df_two 5) !! lit "p10/s1/a.jpg"
      = Some (report_sentences latin1 5 (lit "No pneumothorax."))
      /\ lit "p10/s1/a.jpg" ∉ to_remove (build_loop latin1 df_two 5)).
Proof.
  assert (create_path_2_sent_mapping latin1 df_two 5
          = Ok (path2sent (build_loop latin1 df_two 5),
                to_remove (build_loop latin1 df_two 5))) as Hc
    by (vm_compute; reflexivity).
  assert (NoDup (img_path <$> df_two)) as Hnd
    by (apply (bool_decide_unpack _); vm_compute; exact I).
  assert (mk_row "p10/s1/a.jpg" "train" "No pneumothorax." ∈ df_two) as Hr
    by left.
  split; [exact Hc |]. split; [exact Hnd |]. split; [exact Hr |].
  exact (proj1 (index_entry_is_own_report latin1 5 df_two _ _ _ Hc Hnd Hr)).
Defined.

(** X3: the word limit only cuts the collection short.  Compared with a
    limit that no total can equal (a negative one), the sentences kept
    under any limit are a prefix of the sentences kept, in the same
    order; and they are all of them unless the running total has hit the
    limit exactly. *)
Theorem word_limit_only_truncates U n n' captions st :
  n' < 0 -> 0 <= cnt st ->
  study_sent (sentence_loop U n captions st)
    `prefix_of` study_sent (sentence_loop U n' captions st)
  /\ (study_sent (sentence_loop U n captions st)
      = study_sent (sentence_loop U n' captions st)
      \/ cnt (sentence_loop U n captions st) = n).
Proof. apply sentence_loop_limit_truncates. Qed.

Lemma word_limit_only_truncates_witness :
  -1 < 0 /\ 0 <= cnt sent_init
  /\ study_sent (sentence_loop latin1 4 (split_sentences report_three) sent_init)
       `prefix_of`
     study_sent (sentence_loop latin1 (-1) (split_sentences report_three) sent_init).
Proof.
  assert (-1 < 0) as H1 by lia.
  assert (0 <= cnt sent_init) as H2 by (simpl; lia).
  split; [exact H1 |]. split; [exact H2 |].
  exact (proj1 (word_limit_only_truncates latin1 4 (-1)
                  (split_sentences report_three) sent_init H1 H2)).
Defined.

(** X4: when no record has report text (each impression is the empty
    string or not a string), and in particular on an empty record list,
    no sentence length is recorded and the build raises [ValueError] at
    its statistics instead of returning the index. *)
Theorem build_raises_without_sentences U max_word_num df :
  Forall (fun r => report_text r = []) df ->
  create_path_2_sent_mapping U df max_word_num = Raise ValueError.
Proof.
  intros Hall. unfold create_path_2_sent_mapping, build_loop.
  by rewrite (run_sent_lens_empty_reports U max_word_num df build_init Hall).
Qed.

Lemma build_raises_without_sentences_witness :
  Forall (fun r => report_text r = []) [mk_row "p10/s2/b.jpg" "train" ""]
  /\ create_path_2_sent_mapping latin1 [mk_row "p10/s2/b.jpg" "train" ""] 5
     = Raise ValueError.
Proof.
  assert (Forall (fun r => report_text r = [])
            [mk_row "p10/s2/b.jpg" "train" ""]) as H
    by (constructor; [reflexivity | constructor]).
  split; [exact H |].
  exact (build_raises_without_sentences latin1 5 _ H).
Defined.

(** ** What caption selection returns and raises *)

Section CaptionFacts.
Variable tokenizer : pystr -> Z -> encoding.
Variable cfg : text_cfg.

Lemma elem_of_bind_outcomes {A B} (m : prog A) (k : A -> prog B) r q :
  (r, q) ∈ outcomes (m ≫= k) ->
  exists o, o ∈ outcomes m
    /\ match fst o with
       | Ok a => exists o', o' ∈ outcomes (k a) /\ r = fst o'
       | Raise e => r = Raise e
       end.
Proof.
  unfold mbind, prog_mbind. simpl. intros Hin.
  apply list_elem_of_In, in_flat_map in Hin as (o & Ho & Hin).
  exists o. split; [by apply list_elem_of_In |].
  destruct (fst o) as [a | e].
  - apply in_map_iff in Hin as (o' & [= <- _] & Ho').
    exists o'. split; [by apply list_elem_of_In | done].
  - destruct Hin as [[= <- _] | []]. done.
Qed.

Lemma getitem_ok_elem {A} (l : list A) i x : getitem l i = Ok x -> x ∈ l.
Proof.
  unfold getitem. destruct (_ <? 0); [done |].
  destruct (l !! _) eqn:E; [| done]. intros [= <-].
  by eapply list_elem_of_lookup_2.
Qed.

Lemma select_sent_outcome sents sent q :
  sents <> [] -> (Ok sent, q) ∈ outcomes (select_sent cfg sents) ->
  if full_report cfg then sent = join (lit " ") sents else sent ∈ sents.
Proof.
  intros Hne Hin. destruct (full_report cfg) eqn:Hmode.
  - unfold select_sent in Hin. rewrite Hmode in Hin.
    apply list_elem_of_singleton in Hin. by injection Hin as ->.
  - rewrite select_sent_random_outcomes in Hin by done.
    apply list_elem_of_fmap in Hin as (i & [= Hi _] & _).
    by eapply getitem_ok_elem.
Qed.

Lemma count_nonzero_bounds (ids : list Z) :
  0 <= len (List.filter (fun t => negb (t =? 0)) ids) <= len ids.
Proof.
  unfold len. split; [lia |]. apply inj_le.
  induction ids as [| t ids IH]; simpl; [lia |].
  destruct (negb _); simpl; lia.
Qed.
End CaptionFacts.

(** X5: [get_caption] raises in two cases only: [KeyError] when the path
    is no key of the mapping, and the no-sentence exception when its
    collection is empty.  Neither the random draw nor the indexing of the
    collection ever raises. *)
Theorem get_caption_raises_only (tokenizer : pystr -> Z -> encoding)
    (cfg : text_cfg) (m : gmap pystr (list pystr)) (p : pystr) (e : exn) (q : Q) :
  (Raise e, q) ∈ outcomes (get_caption tokenizer cfg m p) ->
  (m !! p = None /\ e = KeyError) \/ (m !! p = Some [] /\ e = NoSentence).
Proof.
  intros Hin. destruct (m !! p) as [sents |] eqn:Hp.
  - destruct sents as [| s l].
    + right. split; [done |].
      destruct (get_caption_cases tokenizer cfg m p [] Hp) as [Hraise _].
      rewrite Hraise in Hin by done.
      apply list_elem_of_singleton in Hin. by injection Hin as ->.
    + exfalso.
      destruct (get_caption_cases tokenizer cfg m p (s :: l) Hp) as [_ Hok].
      apply (not_fails_all_ok (get_caption tokenizer cfg m p));
        [by apply Hok | by exists e, q].
  - left. split; [done |]. unfold get_caption in Hin. rewrite Hp in Hin.
    apply list_elem_of_singleton in Hin. by injection Hin as ->.
Qed.

Lemma get_caption_raises_only_witness :
  (Raise KeyError, 1%Q)
    ∈ outcomes (get_caption char_tokenizer cfg_random ∅ (lit "p10/s1/a.jpg"))
  /\ ((∅ : gmap pystr (list pystr)) !! lit "p10/s1/a.jpg" = None
      /\ KeyError = KeyError
      \/ (∅ : gmap pystr (list pystr)) !! lit "p10/s1/a.jpg" = Some []
         /\ KeyError = NoSentence).
Proof.
  assert ((Raise KeyError, 1%Q)
            ∈ outcomes (get_caption char_tokenizer cfg_random ∅
                          (lit "p10/s1/a.jpg"))) as H
    by (vm_compute; left).
  split; [exact H |].
  exact (get_caption_raises_only char_tokenizer cfg_random ∅ _ _ _ H).
Defined.

(** X6: whatever [get_caption] returns is the tokenizer's output, at the
    configured length, for text taken from the path's own non-empty
    collection: the join of all its sentences by single spaces in
    full-report mode, one of its sentences otherwise; the returned length
    is the number of non-zero input ids, between 0 and the number of
    input ids. *)
Theorem get_caption_returns_own_sentence (tokenizer : pystr -> Z -> encoding)
    (cfg : text_cfg) (m : gmap pystr (list pystr)) (p : pystr)
    (tokens : encoding) (x_len : Z) (q : Q) :
  (Ok (tokens, x_len), q) ∈ outcomes (get_caption tokenizer cfg m p) ->
  exists sents sent,
    m !! p = Some sents /\ sents <> []
    /\ (if full_report cfg then sent = join (lit " ") sents else sent ∈ sents)
    /\ tokens = tokenizer sent (word_num cfg)
    /\ x_len = len (List.filter (fun t => negb (t =? 0)) (input_ids tokens))
    /\ 0 <= x_len <= len (input_ids tokens).
Proof.
  unfold get_caption. destruct (m !! p) as [sents |] eqn:Hp.
  2: { intros Hin. apply list_elem_of_singleton in Hin. done. }
  destruct (len sents =? 0) eqn:Hlen.
  { intros Hin. apply list_elem_of_singleton in Hin. done. }
  assert (sents <> []) as Hne by (intros ->; done).
  intros Hin. apply elem_of_bind_outcomes in Hin as (o & Ho & Hk).
  destruct o as [[sent | e] w]; simpl in Hk; [| done].
  destruct Hk as (o' & Ho' & Heq).
  apply list_elem_of_singleton in Ho' as ->. simpl in Heq.
  injection Heq as -> ->.
  exists sents, sent. split; [done |]. split; [done |].
  split; [by eapply select_sent_outcome |]. split; [done |].
  split; [done |]. apply count_nonzero_bounds.
Qed.

Lemma get_caption_returns_own_sentence_witness :
  (Ok (char_tokenizer (lit "no pneumothorax") 97, 15), 1 # 1)
    ∈ outcomes (get_caption char_tokenizer cfg_random
                  (path2sent (build_loop latin1 df_two 5))
                  (lit "p10/s1/a.jpg"))
  /\ exists sents sent,
      path2sent (build_loop latin1 df_two 5) !! lit "p10/s1/a.jpg" = Some sents
      /\ sents <> []
      /\ sent ∈ sents
      /\ char_tokenizer (lit "no pneumothorax") 97 = char_tokenizer sent 97.
Proof.
  assert ((Ok (char_tokenizer (lit "no pneumothorax") 97, 15), 1 # 1)
            ∈ outcomes (get_caption char_tokenizer cfg_random
                          (path2sent (build_loop latin1 df_two 5))
                          (lit "p10/s1/a.jpg"))) as H
    by (vm_compute; left).
  split; [exact H |].
  destruct (get_caption_returns_own_sentence _ _ _ _ _ _ _ H)
    as (sents & sent & H1 & H2 & H3 & H4 & _).
  exists sents, sent. split; [exact H1 |]. split; [exact H2 |].
  split; [exact H3 | exact H4].
Defined.

(** ** When the normalizer returns *)

Lemma np_pad_returns a top bottom left right out :
  np_pad a top bottom left right = Ok out ->
  0 <= top /\ 0 <= bottom /\ 0 <= left /\ 0 <= right
  /\ nrows out = (Z.to_nat top + nrows a + Z.to_nat bottom)%nat
  /\ ncols out = (Z.to_nat left + ncols a + Z.to_nat right)%nat.
Proof.
  unfold np_pad.
  destruct (top <? 0) eqn:E1; [done |].
  destruct (bottom <? 0) eqn:E2; [done |].
  destruct (left <? 0) eqn:E3; [done |].
  destruct (right <? 0) eqn:E4; [done |].
  simpl. intros [= <-]. simpl.
  apply Z.ltb_ge in E1, E2, E3, E4. done.
Qed.

Lemma cv2_resize_returns inter_area img w h out :
  cv2_resize inter_area img (w, h) = Ok out ->
  (1 <= nrows img)%nat /\ (1 <= ncols img)%nat
  /\ 1 <= w < 2 ^ 31 /\ 1 <= h < 2 ^ 31
  /\ nrows out = Z.to_nat h /\ ncols out = Z.to_nat w.
Proof.
  unfold cv2_resize.
  destruct (nrows img =? 0)%nat eqn:E1; [done |].
  destruct (ncols img =? 0)%nat eqn:E2; [done |]. simpl.
  destruct (1 <=? w) eqn:E3; [| done].
  destruct (w <? 2 ^ 31) eqn:E4; [| done].
  destruct (1 <=? h) eqn:E5; [| done].
  destruct (h <? 2 ^ 31) eqn:E6; [| done].
  simpl. intros [= <-]. simpl.
  apply Nat.eqb_neq in E1, E2. apply Z.leb_le in E3, E5.
  apply Z.ltb_lt in E4, E6. lia.
Qed.

(** X7: whenever [_resize_img] returns an image, that image is exactly
    scale x scale; and it returns only for an image with at least one row
    and one column, a scale from 1 to 2^31 - 1, and a shorter side whose
    scaled length r (computed in doubles) is from 1 to scale.  An empty
    image, a scale of zero or below, and a side scaled to zero pixels all
    make it raise. *)
Theorem resize_img_returns_only_square inter_area img scale out :
  _resize_img inter_area img scale = Ok out ->
  nrows out = Z.to_nat scale /\ ncols out = Z.to_nat scale
  /\ 1 <= scale < 2 ^ 31
  /\ (1 <= nrows img)%nat /\ (1 <= ncols img)%nat
  /\ exists r,
      scaled_dim scale (Z.max (Z.of_nat (nrows img)) (Z.of_nat (ncols img)))
        (Z.min (Z.of_nat (nrows img)) (Z.of_nat (ncols img))) = Ok r
      /\ 1 <= r <= scale.
Proof.
  unfold _resize_img. cbn [fst snd].
  destruct (Z.of_nat (nrows img) =? Z.max _ _) eqn:Hmax; cbn [Z.eqb].
  - apply Z.eqb_eq in Hmax.
    assert (Z.of_nat (ncols img) <= Z.of_nat (nrows img)) as Hle by lia.
    rewrite Z.max_l, Z.min_r by lia.
    destruct (scaled_dim scale _ _) as [r | e]; [| done].
    unfold mbind, res_mbind. cbn [res_bind fst snd].
    destruct (cv2_resize inter_area img (r, scale)) as [resized | e] eqn:Hres;
      [| done].
    cbn [res_bind]. intros Hpad.
    apply cv2_resize_returns in Hres as (Hr & Hc & Hw & Hh & Hrows & Hcols).
    apply np_pad_returns in Hpad as (_ & _ & Hl & Hrt & -> & ->).
    rewrite Hrows, Hcols in *. rewrite Z2Nat.id in Hl, Hrt by lia.
    assert (0 <= scale - r) as Hpos
      by (revert Hl; Z.to_euclidean_division_equations; lia).
    destruct (pad_split (scale - r) Hpos) as (_ & _ & Hsum & _).
    rewrite Z2Nat.id by lia.
    split; [simpl; lia |]. split; [lia |]. split; [lia |].
    split; [lia |]. split; [lia |]. exists r. split; [done | lia].
  - apply Z.eqb_neq in Hmax.
    assert (Z.of_nat (nrows img) < Z.of_nat (ncols img)) as Hlt by lia.
    rewrite Z.max_r, Z.min_l by lia.
    destruct (scaled_dim scale _ _) as [r | e]; [| done].
    unfold mbind, res_mbind. cbn [res_bind fst snd].
    destruct (cv2_resize inter_area img (scale, r)) as [resized | e] eqn:Hres;
      [| done].
    cbn [res_bind]. intros Hpad.
    apply cv2_resize_returns in Hres as (Hr & Hc & Hw & Hh & Hrows & Hcols).
    apply np_pad_returns in Hpad as (Hl & Hrt & _ & _ & -> & ->).
    rewrite Hrows, Hcols in *. rewrite Z2Nat.id in Hl, Hrt by lia.
    assert (0 <= scale - r) as Hpos
      by (revert Hl; Z.to_euclidean_division_equations; lia).
    destruct (pad_split (scale - r) Hpos) as (_ & _ & Hsum & _).
    rewrite Z2Nat.id by lia.
    split; [lia |]. split; [simpl; lia |]. split; [lia |].
    split; [lia |]. split; [lia |]. exists r. split; [done | lia].
Qed.

Lemma resize_img_returns_only_square_witness :
  _resize_img nearest (blank 2 4 7) 6
  = Ok {| nrows := 6; ncols := 6;
          data := [[0; 0; 0; 0; 0; 0]; [7; 7; 7; 7; 7; 7]; [7; 7; 7; 7; 7; 7];
                   [7; 7; 7; 7; 7; 7]; [0; 0; 0; 0; 0; 0]; [0; 0; 0; 0; 0; 0]] |}
  /\ 1 <= 6 < 2 ^ 31
  /\ exists r, scaled_dim 6 4 2 = Ok r /\ 1 <= r <= 6.
Proof.
  assert (_resize_img nearest (blank 2 4 7) 6
          = Ok {| nrows := 6; ncols := 6;
                  data := [[0; 0; 0; 0; 0; 0]; [7; 7; 7; 7; 7; 7];
                           [7; 7; 7; 7; 7; 7]; [7; 7; 7; 7; 7; 7];
                           [0; 0; 0; 0; 0; 0]; [0; 0; 0; 0; 0; 0]] |}) as H
    by (vm_compute; reflexivity).
  split; [exact H |].
  destruct (resize_img_returns_only_square nearest _ _ _ H)
    as (_ & _ & Hs & _ & _ & Hr).
  split; [exact Hs | exact Hr].
Defined.


(** ** What batch assembly returns *)

Section SortFacts.

Lemma insert_desc_perm x l : insert_desc x l ≡ₚ x :: l.
Proof.
  induction l as [| y l IH]; simpl; [done |].
  destruct (fst y <=? fst x); [done |].
  rewrite IH. apply Permutation_swap.
Qed.

Lemma sort_pairs_perm l : fold_right insert_desc [] l ≡ₚ l.
Proof.
  induction l as [| x l IH]; simpl; [done |].
  by rewrite insert_desc_perm, IH.
Qed.

Lemma insert_desc_sorted x l :
  StronglySorted desc l -> StronglySorted desc (insert_desc x l).
Proof.
  induction 1 as [| y l Hs IH Hall]; simpl.
  - repeat constructor.
  - destruct (fst y <=? fst x) eqn:E.
    + apply Z.leb_le in E. constructor; [by constructor |].
      constructor; [done |].
      eapply Forall_impl; [apply Hall |]. unfold desc. intros z Hz. lia.
    + apply Z.leb_gt in E. constructor; [done |].
      rewrite insert_desc_perm. constructor; [unfold desc; lia | done].
Qed.

Lemma sort_pairs_sorted l : StronglySorted desc (fold_right insert_desc [] l).
Proof.
  induction l as [| x l IH]; simpl; [constructor |].
  by apply insert_desc_sorted.
Qed.

Lemma sorted_values (s : list (Z * nat)) :
  StronglySorted desc s -> StronglySorted (fun a b : Z => b <= a) (map fst s).
Proof.
  induction 1 as [| y l Hs IH Hall]; simpl; constructor; [done |].
  apply Forall_map. by apply (Forall_impl _ _ _ Hall).
Qed.
End SortFacts.

Section CollateFacts.
Context {pixel : Type}.

Implicit Types (batch : list (sample pixel)) (b : sample pixel).

Lemma mapM_res_Forall2 {A B} (f : A -> res B) (l : list A) (k : list B) :
  mapM f l = Ok k -> Forall2 (fun x y => f x = Ok y) l k.
Proof.
  revert k. induction l as [| x l IH]; intros k; simpl.
  - intros [= <-]. constructor.
  - unfold mbind, res_mbind, mret, res_mret.
    destruct (f x) as [y |] eqn:Hx; cbn [res_bind]; [| done].
    destruct (mapM f l) as [k' |]; cbn [res_bind]; [| done].
    intros [= <-]. constructor; [done | by apply IH].
Qed.

(** The pairs that are sorted: each length with its position. *)
Lemma pairs_lookup {A} (g : A -> Z) (pre l : list A) :
  Forall (fun pr : Z * nat => exists x, (pre ++ l) !! snd pr = Some x /\ g x = fst pr)
    (combine (map g l) (seq (length pre) (length l)))
  /\ omap (fun pr : Z * nat => (pre ++ l) !! snd pr)
       (combine (map g l) (seq (length pre) (length l))) = l.
Proof.
  revert pre. induction l as [| x l IH]; intros pre; simpl; [by split |].
  destruct (IH (pre ++ [x])) as [Hall Hmap].
  rewrite length_app, Nat.add_1_r, <- app_assoc in Hall, Hmap.
  simpl in Hall, Hmap.
  assert ((pre ++ x :: l) !! length pre = Some x) as Hx
    by (by rewrite lookup_app_r, Nat.sub_diag by lia).
  split.
  - constructor; [| done]. by exists x.
  - rewrite Hx. f_equal. exact Hmap.
Qed.

Lemma collate_returns batch d :
  multimodal_collate_fn batch = Ok d ->
  batch <> []
  /\ cap_lens d = fst (sort_descending (map s_cap_l batch))
  /\ path d = map s_p batch
  /\ exists rows,
      imgs d = Rows rows
      /\ Forall2 (fun i row => nth_error (map s_img batch) i = Some row)
           (snd (sort_descending (map s_cap_l batch))) rows.
Proof.
  unfold multimodal_collate_fn, mbind, res_mbind, fmap, res_fmap.
  destruct (stack (map s_img batch)) as [t |] eqn:Hstack; cbn [res_bind];
    [| done].
  destruct (stack (map (fun b => as_tensor (input_ids (s_cap b))) batch));
    cbn [res_bind]; [| done].
  destruct (stack (map (fun b => as_tensor (Sampler.token_type_ids (s_cap b))) batch));
    cbn [res_bind]; [| done].
  destruct (stack (map (fun b => as_tensor (Sampler.attention_mask (s_cap b))) batch));
    cbn [res_bind]; [| done].
  destruct (sort_descending _) as [vals idx] eqn:Hsort.
  do 3 (destruct (index_rows (squeeze _) idx); cbn [res_bind]; [| done]).
  destruct (index_rows t idx) as [t' |] eqn:Hidx; cbn [res_bind]; [| done].
  intros [= <-]. cbn [cap_lens path imgs fst snd].
  split; [by intros -> |]. split; [done |]. split; [done |].
  unfold stack in Hstack. destruct (map s_img batch) as [| t0 ts] eqn:Himgs;
    [done |].
  destruct (forallb _ ts); [| done]. injection Hstack as <-.
  unfold index_rows, mbind, res_mbind in Hidx.
  destruct (mapM _ idx) as [rows |] eqn:Hrows; cbn [res_bind] in Hidx; [| done].
  injection Hidx as <-. exists rows. split; [done |].
  apply mapM_res_Forall2 in Hrows.
  eapply Forall2_impl; [apply Hrows |]. intros i row. simpl.
  by destruct (nth_error (t0 :: ts) i); [intros [= ->] |].
Qed.
End CollateFacts.

Section CollateOrder.
Context {pixel : Type}.

Implicit Types (batch : list (sample pixel)) (b : sample pixel).

Lemma nth_error_is_lookup {A} (l : list A) i : nth_error l i = l !! i.
Proof. revert i. induction l as [| x l IH]; intros [| i]; simpl; auto. Qed.

Lemma sorted_batch_fields batch (s : list (Z * nat)) rows :
  Forall (fun pr => exists b, batch !! snd pr = Some b /\ s_cap_l b = fst pr) s ->
  Forall2 (fun i row => nth_error (map s_img batch) i = Some row)
    (map snd s) rows ->
  map fst s = map s_cap_l (omap (fun pr : Z * nat => batch !! snd pr) s)
  /\ rows = map s_img (omap (fun pr : Z * nat => batch !! snd pr) s).
Proof.
  intros Hall. revert rows.
  induction Hall as [| pr s (b & Hb & Hl) _ IH]; intros rows Hrows; simpl in *.
  - by apply Forall2_nil_inv_l in Hrows as ->.
  - apply Forall2_cons_inv_l in Hrows as (row & rows' & Hrow & Hrows & ->).
    destruct (IH rows' Hrows) as [IH1 IH2].
    rewrite Hb. simpl. split.
    + f_equal; [by rewrite Hl | exact IH1].
    + f_equal; [| exact IH2].
      rewrite nth_error_map, nth_error_is_lookup, Hb in Hrow.
      simpl in Hrow. congruence.
Qed.
End CollateOrder.

(** X8: whenever [multimodal_collate_fn] returns, the batch was not empty
    and there is one reordering of the batch that gives both the returned
    caption lengths and the returned images, sample by sample; the
    returned lengths are in non-increasing order; the returned paths are
    the paths of the batch in its original order. *)
Theorem collate_sorts_lengths_with_images {pixel} (batch : list (sample pixel)) d :
  multimodal_collate_fn batch = Ok d ->
  batch <> []
  /\ StronglySorted (fun a b : Z => b <= a) (cap_lens d)
  /\ path d = map s_p batch
  /\ exists sorted_batch,
      sorted_batch ≡ₚ batch
      /\ cap_lens d = map s_cap_l sorted_batch
      /\ imgs d = Rows (map s_img sorted_batch).
Proof.
  intros (Hne & Hlens & Hpath & rows & Himgs & Hrows)%collate_returns.
  unfold sort_descending in Hlens, Hrows. cbn [fst snd] in Hlens, Hrows.
  rewrite length_map in Hlens, Hrows.
  set (pairs := combine (map s_cap_l batch) (seq 0 (length batch))) in *.
  set (s := fold_right insert_desc [] pairs) in *.
  destruct (pairs_lookup s_cap_l [] batch) as [Hall Hmap].
  simpl in Hall, Hmap. fold pairs in Hall, Hmap.
  assert (Forall (fun pr => exists b, batch !! snd pr = Some b
                                      /\ s_cap_l b = fst pr) s) as Hs.
  { rewrite Forall_forall in Hall. apply Forall_forall. intros pr Hpr.
    apply Hall. by rewrite <- (sort_pairs_perm pairs). }
  destruct (sorted_batch_fields batch s rows Hs Hrows) as [Hf Hr].
  split; [done |]. split.
  { rewrite Hlens. apply sorted_values, sort_pairs_sorted. }
  split; [done |].
  exists (omap (fun pr : Z * nat => batch !! snd pr) s).
  split; [| split].
  - etrans; [apply omap_Permutation, sort_pairs_perm |]. by rewrite Hmap.
  - by rewrite Hlens.
  - by rewrite Himgs, Hr.
Qed.

Lemma collate_sorts_lengths_with_images_witness :
  multimodal_collate_fn batch3
  = Ok {| caption_ids := Rows [Rows [Scalar 101; Scalar 8; Scalar 102; Scalar 0];
                               Rows [Scalar 101; Scalar 9; Scalar 102; Scalar 0];
                               Rows [Scalar 101; Scalar 7; Scalar 102; Scalar 0]];
          Collate.token_type_ids :=
            Rows [Rows [Scalar 0; Scalar 0; Scalar 0; Scalar 0];
                  Rows [Scalar 0; Scalar 0; Scalar 0; Scalar 0];
                  Rows [Scalar 0; Scalar 0; Scalar 0; Scalar 0]];
          Collate.attention_mask :=
            Rows [Rows [Scalar 1; Scalar 1; Scalar 1; Scalar 0];
                  Rows [Scalar 1; Scalar 1; Scalar 1; Scalar 0];
                  Rows [Scalar 1; Scalar 1; Scalar 1; Scalar 0]];
          imgs := Rows [Rows [Rows [Scalar 20; Scalar 20]];
                        Rows [Rows [Scalar 30; Scalar 30]];
                        Rows [Rows [Scalar 10; Scalar 10]]];
          cap_lens := [12; 8; 5];
          path := [lit "a.jpg"; lit "b.jpg"; lit "c.jpg"] |}
  /\ batch3 <> []
  /\ StronglySorted (fun a b : Z => b <= a) [12; 8; 5].
Proof.
  assert (multimodal_collate_fn batch3
          = Ok {| caption_ids := Rows [Rows [Scalar 101; Scalar 8; Scalar 102; Scalar 0];
                                       Rows [Scalar 101; Scalar 9; Scalar 102; Scalar 0];
                                       Rows [Scalar 101; Scalar 7; Scalar 102; Scalar 0]];
                  Collate.token_type_ids :=
                    Rows [Rows [Scalar 0; Scalar 0; Scalar 0; Scalar 0];
                          Rows [Scalar 0; Scalar 0; Scalar 0; Scalar 0];
                          Rows [Scalar 0; Scalar 0; Scalar 0; Scalar 0]];
                  Collate.attention_mask :=
                    Rows [Rows [Scalar 1; Scalar 1; Scalar 1; Scalar 0];
                          Rows [Scalar 1; Scalar 1; Scalar 1; Scalar 0];
                          Rows [Scalar 1; Scalar 1; Scalar 1; Scalar 0]];
                  imgs := Rows [Rows [Rows [Scalar 20; Scalar 20]];
                                Rows [Rows [Scalar 30; Scalar 30]];
                                Rows [Rows [Scalar 10; Scalar 10]]];
                  cap_lens := [12; 8; 5];
                  path := [lit "a.jpg"; lit "b.jpg"; lit "c.jpg"] |}) as H
    by (vm_compute; reflexivity).
  split; [exact H |].
  destruct (collate_sorts_lengths_with_images batch3 _ H) as (Hne & Hs & _).
  split; [exact Hne | exact Hs].
Defined.

(** ** The file list of a freshly built index *)

Lemma filter_ext_elem {A} (P Q : A -> Prop) `{!forall x, Decision (P x)}
    `{!forall x, Decision (Q x)} (l : list A) :
  (forall x, x ∈ l -> (P x <-> Q x)) -> filter P l = filter Q l.
Proof.
  induction l as [| x l IH]; intros Hall; [done |].
  rewrite !filter_cons.
  assert (P x <-> Q x) as Hx by (apply Hall; left).
  rewrite IH by (intros y Hy; apply Hall; by right).
  destruct (decide (P x)), (decide (Q x)); tauto.
Qed.

Lemma fresh_file_list_aux (U : unicode_db) (max_word_num : Z)
    (df : list row) (split : pystr) (fs' : cache) (names : list pystr)
    (m : gmap pystr (list pystr)) (tokenizer : pystr -> Z -> encoding)
    (cfg : text_cfg) :
  load_text_data U df max_word_num split None = Ok (fs', (names, m)) ->
  NoDup (img_path <$> df) ->
  names = filter (λ f, is_Some (m !! f))
            (img_path <$> filter (λ r, split_name r = split) df)
  /\ forall f, f ∈ names -> ~ fails (get_caption tokenizer cfg m f).
Proof.
  intros (rm & Hl & ->)%load_text_data_inv Hnd. simpl in Hl.
  destruct (create_path_2_sent_mapping U df max_word_num) as [idx |] eqn:Hc;
    simpl in Hl; [| done].
  injection Hl as _ ->.
  destruct (caption_index_partition_aux _ _ _ _ _ Hc) as [Hu Hd].
  specialize (Hd Hnd).
  assert (forall f, f ∈ (img_path <$> filter (λ r, split_name r = split) df) ->
                    (f ∉ rm <-> is_Some (m !! f))) as Hiff.
  { intros f Hf. rewrite <- elem_of_dom.
    apply list_elem_of_fmap in Hf as (r & -> & [_ Hr]%list_elem_of_filter).
    assert (img_path r ∈ dom m ∪ (list_to_set rm : gset pystr)) as Hin.
    { rewrite Hu. apply elem_of_list_to_set, list_elem_of_fmap. eauto. }
    split; [| by intros ?%Hd].
    intros Hnot. apply elem_of_union in Hin as [Hin | Hin]; [done |].
    by apply elem_of_list_to_set in Hin. }
  split; [by apply filter_ext_elem |].
  intros f [Hnot Hf]%list_elem_of_filter.
  apply Hiff in Hnot as [sents Hs]; [| done].
  pose proof Hc as [-> _]%create_returns_loop_state.
  assert (sents <> []) as Hne.
  { eapply (run_nonempty U max_word_num df build_init); [| exact Hs].
    intros ? ?. simpl. by rewrite lookup_empty. }
  apply not_fails_all_ok.
  by apply (get_caption_cases tokenizer cfg _ _ _ Hs).
Qed.

(** X9: when no caption file exists and the image paths of the records
    are pairwise distinct, the file list that [load_text_data] returns is
    exactly the list of the paths of the split's records, in record
    order, that are keys of the returned mapping, and [get_caption]
    raises on none of the listed paths. *)
Theorem fresh_file_list_is_mapped_paths (U : unicode_db) (max_word_num : Z)
    (df : list row) (split : pystr) (fs' : cache) (names : list pystr)
    (m : gmap pystr (list pystr)) (tokenizer : pystr -> Z -> encoding)
    (cfg : text_cfg) :
  load_text_data U df max_word_num split None = Ok (fs', (names, m)) ->
  NoDup (img_path <$> df) ->
  names = filter (λ f, is_Some (m !! f))
            (img_path <$> filter (λ r, split_name r = split) df)
  /\ forall f, f ∈ names -> ~ fails (get_caption tokenizer cfg m f).
Proof. apply fresh_file_list_aux. Qed.

Lemma fresh_file_list_is_mapped_paths_witness :
  load_text_data latin1 df_two 5 (lit "train") None
  = Ok (Some (path2sent (build_loop latin1 df_two 5),
              to_remove (build_loop latin1 df_two 5)),
        ([lit "p10/s1/a.jpg"], path2sent (build_loop latin1 df_two 5)))
  /\ NoDup (img_path <$> df_two)
  /\ [lit "p10/s1/a.jpg"]
     = filter (λ f, is_Some (path2sent (build_loop latin1 df_two 5) !! f))
         (img_path <$> filter (λ r, split_name r = lit "train") df_two).
Proof.
  assert (load_text_data latin1 df_two 5 (lit "train") None
          = Ok (Some (path2sent (build_loop latin1 df_two 5),
                      to_remove (build_loop latin1 df_two 5)),
                ([lit "p10/s1/a.jpg"], path2sent (build_loop latin1 df_two 5))))
    as Hl by (vm_compute; reflexivity).
  assert (NoDup (img_path <$> df_two)) as Hnd
    by (apply (bool_decide_unpack _); vm_compute; exact I).
  split; [exact Hl |]. split; [exact Hnd |].
  exact (proj1 (fresh_file_list_is_mapped_paths latin1 5 df_two (lit "train")
                  _ _ _ char_tokenizer cfg_random Hl Hnd)).
Defined.

(** ** The image paths of the constructed table *)

Section PathFacts.

Lemma string_of_uint_no_slash d :
  Forall (fun c => c <> chr_slash) (lit (NilEmpty.string_of_uint d)).
Proof.
  induction d; simpl; try constructor; try done.
Qed.

Lemma str_of_int_no_slash z : Forall (fun c => c <> chr_slash) (str_of_int z).
Proof.
  unfold str_of_int, NilZero.string_of_int.
  destruct (Z.to_int z) as [d | d].
  - unfold NilZero.string_of_uint. destruct d;
      try apply string_of_uint_no_slash. by repeat constructor.
  - change (Forall (fun c => c <> chr_slash)
              (45%N :: lit (NilZero.string_of_uint d))).
    constructor; [done |].
    unfold NilZero.string_of_uint. destruct d;
      try apply string_of_uint_no_slash. by repeat constructor.
Qed.

(** Two strings that agree after a first part without a slash and a slash
    agree in that part and in the rest. *)
Lemma split_at_first_slash (a1 a2 r1 r2 : pystr) :
  Forall (fun c => c <> chr_slash) a1 -> Forall (fun c => c <> chr_slash) a2 ->
  a1 ++ chr_slash :: r1 = a2 ++ chr_slash :: r2 -> a1 = a2 /\ r1 = r2.
Proof.
  revert a2. induction a1 as [| c a1 IH]; intros a2 H1 H2 Heq.
  - destruct a2 as [| c2 a2]; simpl in Heq.
    + by injection Heq as ->.
    + injection Heq as <- _. apply Forall_cons in H2 as [Hc _]. done.
  - apply Forall_cons in H1 as [Hc H1].
    destruct a2 as [| c2 a2]; simpl in Heq.
    + injection Heq as -> _. done.
    + injection Heq as <- Heq. apply Forall_cons in H2 as [_ H2].
      destruct (IH a2 H1 H2 Heq) as [-> ->]. done.
Qed.
End PathFacts.

Lemma make_img_path_inj s1 t1 d1 s2 t2 d2 :
  make_img_path s1 t1 d1 = make_img_path s2 t2 d2 ->
  str_of_int s1 = str_of_int s2 /\ str_of_int t1 = str_of_int t2 /\ d1 = d2.
Proof.
  unfold make_img_path. intros H. apply app_inv_head in H.
  change (lit "/p") with [chr_slash; 112%N] in H.
  change (lit "/s") with [chr_slash; 115%N] in H.
  change (lit "/") with [chr_slash] in H.
  simpl in H.
  apply split_at_first_slash in H as [_ H];
    [| apply Forall_take, str_of_int_no_slash ..].
  injection H as H.
  apply split_at_first_slash in H as [Hs H];
    [| apply str_of_int_no_slash ..].
  injection H as H.
  apply split_at_first_slash in H as [Ht H];
    [| apply str_of_int_no_slash ..].
  apply app_inv_tail in H. done.
Qed.

Section JoinFacts.

Lemma filter_at_most_one {A K} (f : A -> K) (P : A -> Prop)
    `{!forall x, Decision (P x)} (l : list A) (k : K) :
  NoDup (f <$> l) -> (forall x, P x -> f x = k) ->
  (length (filter P l) <= 1)%nat.
Proof.
  intros Hnd HP. induction l as [| x l IH]; [simpl; lia |].
  rewrite fmap_cons in Hnd. apply NoDup_cons in Hnd as [Hx Hnd].
  rewrite filter_cons. destruct (decide (P x)) as [Hpx |]; [| by apply IH].
  assert (filter P l = []) as ->; [| simpl; lia].
  destruct (filter P l) as [| y l'] eqn:E; [done |]. exfalso.
  assert (y ∈ filter P l) as [Hpy Hy]%list_elem_of_filter
    by (rewrite E; left).
  apply Hx. rewrite (HP x Hpx), <- (HP y Hpy).
  apply list_elem_of_fmap. eauto.
Qed.

Lemma flat_map_keys_nodup {A B K} (f : A -> K) (g : A -> list B) (h : B -> K)
    (l : list A) :
  NoDup (f <$> l) ->
  (forall x, (length (g x) <= 1)%nat) ->
  (forall x y, y ∈ g x -> h y = f x) ->
  NoDup (h <$> flat_map g l).
Proof.
  intros Hnd Hone Hkey. induction l as [| x l IH]; [constructor |].
  rewrite fmap_cons in Hnd. apply NoDup_cons in Hnd as [Hx Hnd].
  simpl. rewrite fmap_app. apply NoDup_app. split; [| split].
  - specialize (Hone x). destruct (g x) as [| y [| ? ?]]; simpl in *;
      [constructor | | lia].
    apply NoDup_singleton.
  - intros k Hk1 Hk2. apply Hx.
    apply list_elem_of_fmap in Hk1 as (y & -> & Hy).
    apply list_elem_of_fmap in Hk2 as (y' & Heq & Hy').
    apply list_elem_of_In, in_flat_map in Hy' as (x' & Hx' & Hy').
    rewrite (Hkey x y Hy) in Heq. rewrite Heq.
    rewrite (Hkey x' y') by (by apply list_elem_of_In).
    apply list_elem_of_fmap. exists x'. split; [done |].
    by apply list_elem_of_In.
  - by apply IH.
Qed.

Lemma nodup_filter_keys {A K} (h : A -> K) (p : A -> bool) (l : list A) :
  NoDup (h <$> l) -> NoDup (h <$> List.filter p l).
Proof.
  induction l as [| x l IH]; [done |].
  rewrite fmap_cons. intros [Hx Hnd]%NoDup_cons.
  cbn [List.filter]. destruct (p x); [| by apply IH].
  rewrite fmap_cons. apply NoDup_cons. split; [| by apply IH].
  intros Hin. apply Hx.
  apply list_elem_of_fmap in Hin as (y & -> & Hy).
  apply list_elem_of_fmap. exists y. split; [done |].
  apply list_elem_of_In. apply list_elem_of_In, filter_In in Hy as [Hy _].
  done.
Qed.

Lemma nodup_finer_keys {A K1 K2} (f : A -> K1) (g : A -> K2) (l : list A) :
  NoDup (f <$> l) -> (forall x y, g x = g y -> f x = f y) ->
  NoDup (g <$> l).
Proof.
  intros Hnd Hfg. induction l as [| x l IH]; [constructor |].
  rewrite fmap_cons in Hnd. apply NoDup_cons in Hnd as [Hx Hnd].
  rewrite fmap_cons. apply NoDup_cons. split; [| by apply IH].
  intros Hin. apply Hx.
  apply list_elem_of_fmap in Hin as (y & Heq & Hy).
  rewrite (Hfg x y Heq). apply list_elem_of_fmap. eauto.
Qed.

(** The table that [__init__] builds names each image path once, when
    the split table and the metadata table name each [dicom_id] once and
    the section table names each [study_id] once. *)
Lemma make_df_paths_nodup split_df meta_df section_df :
  NoDup (sp_dicom_id <$> split_df) ->
  NoDup (me_dicom_id <$> meta_df) ->
  NoDup (se_study_id <$> section_df) ->
  NoDup (img_path <$> make_df split_df meta_df section_df).
Proof.
  intros Hsplit Hmeta Hsection. unfold make_df.
  rewrite <- list_fmap_compose.
  apply (nodup_finer_keys (fun x => sp_dicom_id (fst (fst x)))).
  2: { intros x y H. simpl in H. by apply make_img_path_inj in H as (_ & _ & ?). }
  apply nodup_filter_keys. unfold merge_on_study.
  apply (flat_map_keys_nodup (fun l => sp_dicom_id (fst l))).
  - unfold merge_on_ids.
    apply (flat_map_keys_nodup sp_dicom_id).
    + done.
    + intros l. rewrite length_map.
      apply (filter_at_most_one me_dicom_id _ meta_df (sp_dicom_id l));
        [done |]. by intros r [= -> _ _].
    + intros l y Hy. apply list_elem_of_fmap in Hy as (r & -> & _). done.
  - intros l. rewrite length_map.
    by apply (filter_at_most_one se_study_id _ section_df (sp_study_id (fst l))).
  - intros l y Hy. apply list_elem_of_fmap in Hy as (r & -> & _). done.
Qed.
End JoinFacts.


(** ** The file list and the partition, on what the program builds *)

(** C3, as stated, fails when a caption file that an earlier run wrote is
    loaded with records that the earlier run did not have: the path of
    the new record is listed and is no key of the mapping. *)
Lemma old_cache_lists_unmapped_path :
  load_text_data latin1 df_old 5 (lit "train") None
  = Ok (old_cache,
        ([lit "p10/s1/a.jpg"], path2sent (build_loop latin1 df_old 5)))
  /\ load_text_data latin1 df_new 5 (lit "train") old_cache
     = Ok (old_cache,
           ([lit "p10/s1/a.jpg"; lit "p10/s3/c.jpg"],
            path2sent (build_loop latin1 df_old 5)))
  /\ path2sent (build_loop latin1 df_old 5) !! lit "p10/s3/c.jpg" = None.
Proof. repeat split; vm_compute; reflexivity. Qed.

(** C3 (amended): the file list is the list of the paths of the records
    of the split, in record order, without those in the exclusion list of
    the caption file.  When the caption file was written by a build on
    records with pairwise distinct image paths, every path of the split
    that is a key of the mapping is listed.  When the caption file was
    built by this very call, every listed path is a key of the mapping,
    and with pairwise distinct image paths the list is exactly the list
    of the paths of the split that are keys of the mapping. *)
Theorem filenames_are_split_paths_not_excluded (U : unicode_db)
    (max_word_num : Z) (df : list row) (split : pystr) (fs fs' : cache)
    (names : list pystr) (m : gmap pystr (list pystr)) :
  load_text_data U df max_word_num split fs = Ok (fs', (names, m)) ->
  exists rm,
    fs' = Some (m, rm)
    /\ names = filter (λ f, f ∉ rm)
                 (img_path <$> filter (λ r, split_name r = split) df)
    /\ (forall U0 df0 n0,
          create_path_2_sent_mapping U0 df0 n0 = Ok (m, rm) ->
          NoDup (img_path <$> df0) ->
          forall f, f ∈ (img_path <$> filter (λ r, split_name r = split) df) ->
                    is_Some (m !! f) -> f ∈ names)
    /\ (fs = None ->
        (forall f, f ∈ names -> is_Some (m !! f))
        /\ (NoDup (img_path <$> df) ->
            names = filter (λ f, is_Some (m !! f))
                      (img_path <$> filter (λ r, split_name r = split) df))).
Proof.
  intros Hload.
  pose proof Hload as (rm & Hl & Hnames)%load_text_data_inv.
  exists rm.
  destruct (load_captions_saves _ _ _ _ _ _ Hl) as [-> _].
  split; [done |]. split; [done |]. split.
  - intros U0 df0 n0 Hc Hnd f Hf Hkey. rewrite Hnames.
    apply list_elem_of_filter. split; [| done].
    destruct (caption_index_partition_aux _ _ _ _ _ Hc) as [_ Hd].
    apply (Hd Hnd). by apply elem_of_dom.
  - intros ->. split.
    + simpl in Hl.
      destruct (create_path_2_sent_mapping U df max_word_num) as [idx |] eqn:Hc;
        simpl in Hl; [| done].
      injection Hl as ->.
      destruct (caption_index_partition_aux _ _ _ _ _ Hc) as [Hu _].
      intros f. rewrite Hnames. intros [Hnot Hf]%list_elem_of_filter.
      apply list_elem_of_fmap in Hf as (r & -> & [_ Hr]%list_elem_of_filter).
      assert (img_path r ∈ dom m ∪ (list_to_set rm : gset pystr)) as Hin.
      { rewrite Hu. apply elem_of_list_to_set, list_elem_of_fmap. eauto. }
      apply elem_of_union in Hin as [Hin | Hin].
      * by apply elem_of_dom.
      * by apply elem_of_list_to_set in Hin.
    + intros Hnd.
      exact (proj1 (fresh_file_list_aux U max_word_num df split _ names m
                      (fun _ _ => {| input_ids := []; Sampler.token_type_ids := [];
                                     Sampler.attention_mask := [] |})
                      {| full_report := true; word_num := 0 |} Hload Hnd)).
Qed.

Lemma filenames_are_split_paths_not_excluded_witness :
  load_text_data latin1 df_two 5 (lit "train") None
  = Ok (Some (path2sent (build_loop latin1 df_two 5),
              to_remove (build_loop latin1 df_two 5)),
        ([lit "p10/s1/a.jpg"], path2sent (build_loop latin1 df_two 5)))
  /\ exists rm,
      Some (path2sent (build_loop latin1 df_two 5),
            to_remove (build_loop latin1 df_two 5))
      = Some (path2sent (build_loop latin1 df_two 5), rm)
      /\ [lit "p10/s1/a.jpg"]
         = filter (λ f, f ∉ rm)
             (img_path <$> filter (λ r, split_name r = lit "train") df_two).
Proof.
  assert (load_text_data latin1 df_two 5 (lit "train") None
          = Ok (Some (path2sent (build_loop latin1 df_two 5),
                      to_remove (build_loop latin1 df_two 5)),
                ([lit "p10/s1/a.jpg"], path2sent (build_loop latin1 df_two 5))))
    as Hl by (vm_compute; reflexivity).
  split; [exact Hl |].
  destruct (filenames_are_split_paths_not_excluded latin1 5 df_two (lit "train")
              None _ _ _ Hl) as (rm & H1 & H2 & _).
  exists rm. split; [exact H1 | exact H2].
Defined.

Lemma any_duplicated_false {A} `{EqDecision A} (l : list A) :
  any_duplicated l = false -> NoDup l.
Proof.
  unfold any_duplicated. intros H%negb_false_iff.
  by apply bool_decide_eq_true in H.
Qed.

(** What [__init__] has checked and set when it returns. *)
Lemma init_returns U cfg split split_df meta_df section_df fs fs' ds :
  __init__ U cfg split split_df meta_df section_df fs = Built (fs', ds) ->
  NoDup (sp_dicom_id <$> split_df)
  /\ NoDup (me_dicom_id <$> meta_df)
  /\ NoDup (se_study_id <$> section_df)
  /\ self_cfg ds = cfg
  /\ self_max_word_num ds = captions_per_image cfg
  /\ self_df ds = make_df split_df meta_df section_df
  /\ load_text_data U (self_df ds) (captions_per_image cfg)
       (if bool_decide (split = lit "valid") then lit "validate" else split) fs
     = Ok (fs', (self_filenames ds, self_path2sent ds)).
Proof.
  unfold __init__.
  destruct (any_duplicated (sp_dicom_id <$> split_df)) eqn:H1; [done |].
  destruct (any_duplicated (me_dicom_id <$> meta_df)) eqn:H2; [done |].
  destruct (any_duplicated (se_study_id <$> section_df)) eqn:H3; [done |].
  destruct (load_text_data _ _ _ _ _) as [[fs0 [names m]] |] eqn:Hl; [| done].
  intros [= <- <-]. simpl.
  apply any_duplicated_false in H1, H2, H3. done.
Qed.

(** C7: on a record list with pairwise distinct image paths, the keys of
    the returned mapping and the returned excluded paths are disjoint and
    together are exactly the input image paths.  Every table that
    [__init__] builds from tables that pass its assertions has pairwise
    distinct image paths, so this holds of the index that [__init__]
    builds and saves when no caption file exists. *)
Theorem caption_index_partition (U : unicode_db) :
  (forall max_word_num df (m : gmap pystr (list pystr)) (rm : list pystr),
      create_path_2_sent_mapping U df max_word_num = Ok (m, rm) ->
      NoDup (img_path <$> df) ->
      dom m ∪ list_to_set rm = (list_to_set (img_path <$> df) : gset pystr)
      /\ (forall p, p ∈ dom m -> p ∉ rm)
      /\ (forall p, p ∈ (img_path <$> df) ->
                    ((p ∈ dom m) /\ (p ∉ rm)) \/ ((p ∉ dom m) /\ (p ∈ rm))))
  /\ (forall cfg split split_df meta_df section_df fs' ds,
      __init__ U cfg split split_df meta_df section_df None = Built (fs', ds) ->
      NoDup (img_path <$> self_df ds)
      /\ exists rm,
          fs' = Some (self_path2sent ds, rm)
          /\ create_path_2_sent_mapping U (self_df ds) (captions_per_image cfg)
             = Ok (self_path2sent ds, rm)
          /\ dom (self_path2sent ds) ∪ list_to_set rm
             = (list_to_set (img_path <$> self_df ds) : gset pystr)
          /\ (forall p, p ∈ dom (self_path2sent ds) -> p ∉ rm)).
Proof.
  split.
  - intros n df m rm Hc Hnd.
    destruct (caption_index_partition_aux _ _ _ _ _ Hc) as [Hu Hd].
    specialize (Hd Hnd). split; [done |]. split; [done |].
    intros p Hp.
    assert (p ∈ dom m ∪ (list_to_set rm : gset pystr)) as Hin
      by (rewrite Hu; by apply elem_of_list_to_set).
    destruct (decide (p ∈ dom m)) as [Hk | Hk]; [left; auto |].
    right. split; [done |].
    apply elem_of_union in Hin as [Hin | Hin]; [done |].
    by apply elem_of_list_to_set in Hin.
  - intros cfg split split_df meta_df section_df fs' ds
      (H1 & H2 & H3 & _ & _ & Hdf & Hl)%init_returns.
    assert (NoDup (img_path <$> self_df ds)) as Hnd
      by (rewrite Hdf; by apply make_df_paths_nodup).
    split; [done |].
    apply load_text_data_inv in Hl as (rm & Hl & _). simpl in Hl.
    destruct (create_path_2_sent_mapping U (self_df ds) (captions_per_image cfg))
      as [idx |] eqn:Hc; simpl in Hl; [| done].
    injection Hl as <- ->. exists rm.
    destruct (caption_index_partition_aux _ _ _ _ _ Hc) as [Hu Hd].
    split; [done |]. split; [done |]. split; [done | by apply Hd].
Qed.

Lemma caption_index_partition_witness :
  create_path_2_sent_mapping latin1 df_two 5
  = Ok (path2sent (build_loop latin1 df_two 5),
        to_remove (build_loop latin1 df_two 5))
  /\ NoDup (img_path <$> df_two)
  /\ (dom (path2sent (build_loop latin1 df_two 5))
        ∪ list_to_set (to_remove (build_loop latin1 df_two 5))
      = (list_to_set (img_path <$> df_two) : gset pystr)
      /\ forall p, p ∈ dom (path2sent (build_loop latin1 df_two 5)) ->
                   p ∉ to_remove (build_loop latin1 df_two 5)).
Proof.
  assert (create_path_2_sent_mapping latin1 df_two 5
          = Ok (path2sent (build_loop latin1 df_two 5),
                to_remove (build_loop latin1 df_two 5))) as Hc
    by (vm_compute; reflexivity).
  assert (NoDup (img_path <$> df_two)) as Hnd
    by (apply (bool_decide_unpack _); vm_compute; exact I).
  split; [exact Hc |]. split; [exact Hnd |].
  destruct (proj1 (caption_index_partition latin1) 5 df_two _ _ Hc Hnd)
    as (Hu & Hd & _).
  split; [exact Hu | exact Hd].
Defined.

(** ** The constructor *)

Lemma make_df_rows split_df meta_df section_df r :
  r ∈ make_df split_df meta_df section_df ->
  impression r <> CNaN
  /\ exists s, s ∈ split_df
      /\ img_path r = make_img_path (sp_subject_id s) (sp_study_id s) (sp_dicom_id s)
      /\ split_name r = sp_split s.
Proof.
  unfold make_df. intros (x & -> & Hx)%list_elem_of_fmap.
  apply list_elem_of_In, filter_In in Hx as [Hx Hkeep].
  split.
  - unfold keep_row in Hkeep. apply andb_prop in Hkeep as [_ Hnn].
    simpl. by destruct (se_impression x.2).
  - unfold merge_on_study in Hx.
    apply in_flat_map in Hx as (l & Hl & Hx).
    apply in_map_iff in Hx as (sec & <- & _).
    unfold merge_on_ids in Hl.
    apply in_flat_map in Hl as (s & Hs & Hl).
    apply in_map_iff in Hl as (me & <- & _).
    exists s. split; [by apply list_elem_of_In | done].
Qed.

(** X11: whenever [__init__] returns, with or without a caption file, the
    table it keeps names each image path once, no record of it has a
    missing impression, and every record of it carries the split of a
    row of the split table and the image path made of that row's
    identifiers; the word limit it keeps is [captions_per_image]. *)
Theorem init_table_invariants U cfg split split_df meta_df section_df
    (fs fs' : cache) ds :
  __init__ U cfg split split_df meta_df section_df fs = Built (fs', ds) ->
  NoDup (img_path <$> self_df ds)
  /\ self_max_word_num ds = captions_per_image cfg
  /\ forall r, r ∈ self_df ds ->
       impression r <> CNaN
       /\ exists s, s ∈ split_df
           /\ img_path r = make_img_path (sp_subject_id s) (sp_study_id s)
                             (sp_dicom_id s)
           /\ split_name r = sp_split s.
Proof.
  intros (H1 & H2 & H3 & _ & Hn & Hdf & _)%init_returns.
  rewrite Hdf. split; [by apply make_df_paths_nodup |]. split; [done |].
  intros r. apply make_df_rows.
Qed.

Lemma init_example_returns :
  exists fs' ds,
    __init__ latin1 cfg_example (lit "valid") split_table meta_table
      section_table None = Built (fs', ds)
    /\ self_filenames ds
       = [make_img_path 10000032 53189527 (lit "17bb")].
Proof. eexists _, _. split; vm_compute; reflexivity. Qed.

Lemma init_table_invariants_witness :
  exists fs' ds,
    __init__ latin1 cfg_example (lit "valid") split_table meta_table
      section_table None = Built (fs', ds)
    /\ NoDup (img_path <$> self_df ds)
    /\ self_max_word_num ds = 5.
Proof.
  destruct init_example_returns as (fs' & ds & H & _).
  exists fs', ds. split; [exact H |].
  destruct (init_table_invariants latin1 cfg_example (lit "valid") split_table
              meta_table section_table None fs' ds H) as (Hnd & Hn & _).
  split; [exact Hnd | exact Hn].
Defined.


(** X13: when no caption file exists, the file list that [__init__]
    keeps for a split is exactly the list, in table order, of the image
    paths of the split's records that are keys of the mapping it keeps,
    where the split "valid" stands for "validate"; [get_caption] raises
    on none of the listed paths. *)
Theorem init_file_list_is_mapped_paths U cfg split split_df meta_df section_df
    (fs' : cache) ds (tokenizer : pystr -> Z -> encoding) :
  __init__ U cfg split split_df meta_df section_df None = Built (fs', ds) ->
  self_filenames ds
  = filter (λ f, is_Some (self_path2sent ds !! f))
      (img_path <$>
         filter (λ r, split_name r
                      = if bool_decide (split = lit "valid")
                        then lit "validate" else split)
           (self_df ds))
  /\ forall f, f ∈ self_filenames ds ->
       ~ fails (get_caption tokenizer (text cfg) (self_path2sent ds) f).
Proof.
  intros (H1 & H2 & H3 & _ & _ & Hdf & Hl)%init_returns.
  apply (fresh_file_list_aux U _ _ _ _ _ _ tokenizer (text cfg) Hl).
  rewrite Hdf. by apply make_df_paths_nodup.
Qed.

Lemma init_file_list_is_mapped_paths_witness :
  exists fs' ds,
    __init__ latin1 cfg_example (lit "valid") split_table meta_table
      section_table None = Built (fs', ds)
    /\ self_filenames ds
       = filter (λ f, is_Some (self_path2sent ds !! f))
           (img_path <$> filter (λ r, split_name r = lit "validate") (self_df ds)).
Proof.
  destruct init_example_returns as (fs' & ds & H & _).
  exists fs', ds. split; [exact H |].
  exact (proj1 (init_file_list_is_mapped_paths latin1 cfg_example (lit "valid")
                  split_table meta_table section_table fs' ds char_tokenizer H)).
Defined.
